(** * Session and token lifecycle of the Reown AppKit service

    A shallow embedding of [ReownAppKitService]
    (projects/reown-appkit/src/lib, the service class and models/index.ts):
    the token kept in [localStorage], the two [BehaviorSubject]s holding the
    current user and session, and the operations that read and write them.

    - The world of the service is explicit: [localStorage] as a finite map
      that is always available, the configuration, the two subjects with
      the values sent to their subscribers, the console lines and the
      requests handed to [HttpClient].
    - An operation is a state-passing computation that returns or throws.
      It is written in two parts, the call, which takes the reading of
      the clock and hands the request over, and the pipe, which runs when
      the reply arrives; and as a whole, for a reply that arrives before
      anything else happens, where what its observable delivers is its
      result.  A service is its world with its requests in flight, and a
      run is a sequence of calls and arrivals in any order.
    - HTTP responses have the types the service declares for them.  The
      stored text has none: it is any string, and what [JSON.parse] makes
      of it is any JSON value.
    - JavaScript built-ins the service calls but does not define
      ([JSON.parse], [JSON.stringify], [Date.parse], [Number::toString])
      are the fields of the class [JSRuntime], with the one law that the
      empty text is not JSON; every general theorem holds for any runtime.
      A reference runtime for a fragment of JSON and ISO-8601 serves the
      closed examples. *)

From Stdlib Require Import ZArith QArith String Ascii List Bool Lia DecimalString.
From stdpp Require Import base gmap strings list.
Import ListNotations.
Close Scope Q_scope.
Open Scope string_scope.
Set Warnings "-register-all".

(** ** JavaScript values *)

(** A JS number: a finite value (every finite double is a rational), the two
    infinities, or NaN. *)
Inductive JSNumber : Type :=
| Finite (q : Q)
| PosInfinity
| NegInfinity
| NaN.

(** What [JSON.parse] can return, and [undefined] (a missing property). *)
Inductive JSValue : Type :=
| JUndefined
| JNull
| JBoolean (b : bool)
| JNumber (n : JSNumber)
| JString (s : string)
| JArray (items : list JSValue)
| JObject (fields : list (string * JSValue)).

(** [!!v]: ToBoolean. *)
Definition ToBoolean (v : JSValue) : bool :=
  match v with
  | JUndefined | JNull => false
  | JBoolean b => b
  | JNumber (Finite q) => negb (Qnum q =? 0)%Z
  | JNumber NaN => false
  | JNumber _ => true
  | JString s => negb (String.eqb s "")
  | JArray _ | JObject _ => true
  end.

(** [v == null]: reading a property of such a value throws a TypeError. *)
Definition nullish (v : JSValue) : bool :=
  match v with
  | JUndefined | JNull => true
  | _ => false
  end.

Fixpoint own_property (fields : list (string * JSValue)) (key : string) : JSValue :=
  match fields with
  | [] => JUndefined
  | (k, v) :: rest => if String.eqb k key then v else own_property rest key
  end.

(** [v.key] for a value that is not nullish.  The service reads only the
    keys [expiresAt] and [token], which no prototype of a primitive, an
    array or a plain object carries: there the result is [undefined]. *)
Definition member (v : JSValue) (key : string) : JSValue :=
  match v with
  | JObject fields => own_property fields key
  | _ => JUndefined
  end.

(** [v.key]: [None] when it throws a TypeError. *)
Definition get_property (v : JSValue) (key : string) : option JSValue :=
  if nullish v then None else Some (member v key).

(** TimeClip(ToNumber n): the time value of [new Date(n)], [None] for NaN. *)
Definition TimeClip (n : JSNumber) : option Z :=
  match n with
  | Finite q =>
      if (Z.abs (Qnum q) <=? 8640000000000000 * Z.pos (Qden q))%Z
      then Some (Z.quot (Qnum q) (Z.pos (Qden q)))
      else None
  | _ => None
  end.

(** ** Models (models/index.ts) *)

(** A [Date] that is valid, by its time value: milliseconds since the epoch. *)
Definition Date : Type := Z.
Bind Scope Z_scope with Date.

Inductive Environment : Type := production | sandbox.

Module ReownConfig.
Record t : Type := Build {
  apiKey : string;
  organizationId : option string;
  environment : option Environment;
  baseUrl : option string
}.
End ReownConfig.

Module ReownUser.
Record t : Type := Build {
  id : string;
  email : string;
  firstName : option string;
  lastName : option string;
  metadata : option (list (string * JSValue))
}.
End ReownUser.

Module ReownSession.
Record t : Type := Build {
  id : string;
  userId : string;
  expiresAt : Date;
  metadata : option (list (string * JSValue))
}.
End ReownSession.

Module ReownToken.
Record t : Type := Build {
  token : string;
  expiresAt : Date
}.
End ReownToken.

(** [Partial<ReownUser>]: the type is erased when the service runs.  What
    [{...userData}] copies, and what the body of the PATCH carries, are the
    own enumerable properties the object has, whatever they are, in their
    order. *)
Module PartialUser.
Definition t : Type := list (string * JSValue).
End PartialUser.

(** ** The runtime *)

Class JSRuntime : Type := {
  (** [String(n)] for a number *)
  Number_toString : JSNumber -> string;
  (** [Date.parse(s)]: the time value, [None] for NaN *)
  Date_parse : string -> option Z;
  (** [JSON.parse(s)]: [None] when it throws a SyntaxError *)
  JSON_parse : string -> option JSValue;
  (** [JSON.stringify(token)] for a token object *)
  JSON_stringify : ReownToken.t -> string;
  (** the empty text is not JSON *)
  JSON_parse_empty : JSON_parse "" = None
}.

Section Runtime.
Context {rt : JSRuntime}.

Fixpoint has_own_property (fields : list (string * JSValue)) (key : string) : bool :=
  match fields with
  | [] => false
  | (k, _) :: rest => String.eqb k key || has_own_property rest key
  end.

(** ToString, as a template literal applies it; [None] when it throws a
    TypeError.  For a parsed object ToPrimitive asks [toString] and
    [valueOf]: [Object.prototype.toString] answers [[object Object]],
    unless the object has an own [toString], which in a parsed value is not
    callable; then no method yields a primitive and the conversion throws.
    A parsed array joins the strings of its elements. *)
Fixpoint ToString (v : JSValue) : option string :=
  match v with
  | JUndefined => Some "undefined"
  | JNull => Some "null"
  | JBoolean true => Some "true"
  | JBoolean false => Some "false"
  | JNumber n => Some (Number_toString n)
  | JString s => Some s
  | JArray items =>
      (fix join (l : list JSValue) : option string :=
         match l with
         | [] => Some ""
         | x :: rest =>
             match (if nullish x then Some "" else ToString x), join rest with
             | Some s, Some r =>
                 Some (match rest with
                       | [] => s
                       | _ :: _ => s +:+ "," +:+ r
                       end)
             | _, _ => None
             end
         end) items
  | JObject fields =>
      if has_own_property fields "toString" then None else Some "[object Object]"
  end.

(** The time value of [new Date(v)]: [Some None] for an Invalid Date,
    [None] when the conversion of [v] to a primitive throws. *)
Definition new_Date (v : JSValue) : option (option Z) :=
  match v with
  | JUndefined => Some None
  | JNull => Some (Some 0%Z)
  | JBoolean b => Some (Some (if b then 1 else 0)%Z)
  | JNumber n => Some (TimeClip n)
  | JString s => Some (Date_parse s)
  | JArray _ | JObject _ => option_map Date_parse (ToString v)
  end.

(** [d < new Date()] with the clock at [now]: false for an Invalid Date. *)
Definition Date_lt_now (d : option Z) (now : Z) : bool :=
  match d with
  | Some t => (t <? now)%Z
  | None => false
  end.

End Runtime.

(** ** The service's world *)

(** An rxjs [BehaviorSubject]: its current [value], and every value handed
    to [next], most recent first (what its subscribers were sent). *)
Record BehaviorSubject (A : Type) : Type := {
  value : A;
  emitted : list A
}.
Arguments value {A} _.
Arguments emitted {A} _.

Definition new_BehaviorSubject {A : Type} (initial : A) : BehaviorSubject A :=
  {| value := initial; emitted := [] |}.

Definition next {A : Type} (x : A) (s : BehaviorSubject A) : BehaviorSubject A :=
  {| value := x; emitted := x :: emitted s |}.

Inductive Method : Type := GET | POST | PATCH | DELETE.

(** A request handed to [HttpClient]. *)
Record HttpRequest : Type := {
  method : Method;
  url : string;
  body : option JSValue;
  headers : gmap string string
}.

(** The [error] a failed exchange hands to [catchError]; [message] is
    [error.message], [None] when it is undefined. *)
Record HttpErrorResponse : Type := {
  message : option string
}.

(** How the exchange of one request ends. *)
Inductive HttpReply (A : Type) : Type :=
| HttpSuccess (response : A)
| HttpFailure (error : HttpErrorResponse).
Arguments HttpSuccess {A} _.
Arguments HttpFailure {A} _.

(** What the observable an operation returns delivers to its subscriber: a
    value, or an [Error] with a message. *)
Inductive Outcome (A : Type) : Type :=
| Emits (a : A)
| Errors (error_message : string).
Arguments Emits {A} _.
Arguments Errors {A} _.

(** The private fields of [ReownAppKitService], with the browser's
    [localStorage], the console lines and the requests sent (most recent
    first). *)
Record World : Type := {
  localStorage : gmap string string;
  config : ReownConfig.t;
  currentUserSubject : BehaviorSubject (option ReownUser.t);
  currentSessionSubject : BehaviorSubject (option ReownSession.t);
  console : list string;
  network : list HttpRequest
}.

Definition DEFAULT_BASE_URL : string := "https://api.reown.com".
Definition tokenStorageKey : string := "reown_token".

(** What a call can throw. *)
Inductive Exception : Type := SyntaxError | TypeError.

(** How a call ends: it returns, or it throws. *)
Inductive Completion (A : Type) : Type :=
| Normal (a : A)
| Thrown (e : Exception).
Arguments Normal {A} _.
Arguments Thrown {A} _.

(** State passing with exceptions: a computation over the world. *)
Definition Eff (A : Type) : Type := World -> Completion A * World.

Definition ret {A : Type} (a : A) : Eff A := fun w => (Normal a, w).

Definition throw {A : Type} (e : Exception) : Eff A := fun w => (Thrown e, w).

Definition bind {A B : Type} (c : Eff A) (k : A -> Eff B) : Eff B :=
  fun w =>
    match c w with
    | (Normal a, w') => k a w'
    | (Thrown e, w') => (Thrown e, w')
    end.

Notation "'let*' x ':=' c 'in' k" := (bind c (fun x => k))
  (at level 10, x name, c at level 100, k at level 200).

(** [try { body } catch (error) { handler }] *)
Definition try_catch {A : Type} (body : Eff A) (handler : Exception -> Eff A) : Eff A :=
  fun w =>
    match body w with
    | (Normal a, w') => (Normal a, w')
    | (Thrown e, w') => handler e w'
    end.

(** A built-in that answers [o] or throws [e]. *)
Definition lift {A : Type} (e : Exception) (o : option A) : Eff A :=
  match o with
  | Some a => ret a
  | None => throw e
  end.

Definition gets {A : Type} (f : World -> A) : Eff A := fun w => (Normal (f w), w).

Definition modify (f : World -> World) : Eff unit := fun w => (Normal tt, f w).

Definition set_localStorage (f : gmap string string -> gmap string string) (w : World) : World :=
  {| localStorage := f (localStorage w); config := config w;
     currentUserSubject := currentUserSubject w;
     currentSessionSubject := currentSessionSubject w;
     console := console w; network := network w |}.

Definition set_config (c : ReownConfig.t) (w : World) : World :=
  {| localStorage := localStorage w; config := c;
     currentUserSubject := currentUserSubject w;
     currentSessionSubject := currentSessionSubject w;
     console := console w; network := network w |}.

Definition next_currentUser (u : option ReownUser.t) (w : World) : World :=
  {| localStorage := localStorage w; config := config w;
     currentUserSubject := next u (currentUserSubject w);
     currentSessionSubject := currentSessionSubject w;
     console := console w; network := network w |}.

Definition next_currentSession (s : option ReownSession.t) (w : World) : World :=
  {| localStorage := localStorage w; config := config w;
     currentUserSubject := currentUserSubject w;
     currentSessionSubject := next s (currentSessionSubject w);
     console := console w; network := network w |}.

Definition console_log (line : string) (w : World) : World :=
  {| localStorage := localStorage w; config := config w;
     currentUserSubject := currentUserSubject w;
     currentSessionSubject := currentSessionSubject w;
     console := line :: console w; network := network w |}.

Definition http_send (r : HttpRequest) (w : World) : World :=
  {| localStorage := localStorage w; config := config w;
     currentUserSubject := currentUserSubject w;
     currentSessionSubject := currentSessionSubject w;
     console := console w; network := r :: network w |}.

(** [localStorage.getItem], [setItem] and [removeItem]. *)
Definition getItem (key : string) (w : World) : option string :=
  localStorage w !! key.

Definition setItem (key v : string) (w : World) : World :=
  set_localStorage (fun m => <[key := v]> m) w.

Definition removeItem (key : string) (w : World) : World :=
  set_localStorage (fun m => delete key m) w.

(** [!!s] for a string that may be undefined: false for [undefined] and
    for the empty string. *)
Definition truthy (s : option string) : bool :=
  match s with
  | Some x => negb (String.eqb x "")
  | None => false
  end.

(** [s || fallback] *)
Definition or_else (s : option string) (fallback : string) : string :=
  if truthy s then default fallback s else fallback.

(** [`${s}`] for a string that may be undefined. *)
Definition template (s : option string) : string :=
  match s with
  | Some x => x
  | None => "undefined"
  end.

(** Fields of a request body: [{...a, ...b}] keeps the place of a key of [a]
    that [b] overwrites and appends the keys that are new. *)
Fixpoint set_field (k : string) (v : JSValue) (fields : list (string * JSValue))
    : list (string * JSValue) :=
  match fields with
  | [] => [(k, v)]
  | (k', v') :: rest =>
      if String.eqb k' k then (k', v) :: rest else (k', v') :: set_field k v rest
  end.

Definition spread (a b : list (string * JSValue)) : list (string * JSValue) :=
  fold_left (fun acc kv => set_field (fst kv) (snd kv) acc) b a.

(** Response bodies of the endpoints. *)
Record SignUpResponse : Type := {
  signUp_user : ReownUser.t;
  signUp_token : ReownToken.t
}.

Record SignInResponse : Type := {
  signIn_user : ReownUser.t;
  signIn_session : ReownSession.t;
  signIn_token : ReownToken.t
}.

Record UserResponse : Type := {
  response_user : ReownUser.t
}.

(** ** The service (ReownAppKitService) *)

Section Service.
Context {rt : JSRuntime}.

(** [clearSession()] *)
Definition clearSession : Eff unit :=
  let* _ := modify (removeItem tokenStorageKey) in
  let* _ := modify (next_currentUser None) in
  modify (next_currentSession None).

(** [setToken(token)] *)
Definition setToken (token : ReownToken.t) : Eff unit :=
  modify (setItem tokenStorageKey (JSON_stringify token)).

(** [getStoredToken()], with the clock at [now].  The result is the parsed
    value, [JNull] for [null]: the cast [as ReownToken] checks nothing at
    run time. *)
Definition getStoredToken (now : Z) : Eff JSValue :=
  let* tokenStr := gets (getItem tokenStorageKey) in
  if negb (truthy tokenStr) then ret JNull
  else
    try_catch
      (let* token := lift SyntaxError (JSON_parse (default "" tokenStr)) in
       let* expiresAt := lift TypeError (get_property token "expiresAt") in
       let* date := lift TypeError (new_Date expiresAt) in
       if Date_lt_now date now
       then let* _ := clearSession in ret JNull
       else ret token)
      (fun error => let* _ := clearSession in ret JNull).

(** [getHeaders()] *)
Definition getHeaders (now : Z) : Eff (gmap string string) :=
  let* cfg := gets config in
  let headers : gmap string string :=
    <["X-API-Key" := ReownConfig.apiKey cfg]>
      (<["Content-Type" := "application/json"]> ∅) in
  let headers :=
    if truthy (ReownConfig.organizationId cfg)
    then <["X-Organization-ID" := default "" (ReownConfig.organizationId cfg)]> headers
    else headers in
  let* token := getStoredToken now in
  if ToBoolean token
  then
    let* bearer := lift TypeError (get_property token "token") in
    let* bearer := lift TypeError (ToString bearer) in
    ret (<["Authorization" := "Bearer " +:+ bearer]> headers)
  else ret headers.

(** [this.http.<method>(`${this.config.baseUrl}<path>`, body, { headers:
    this.getHeaders() })]: the headers are built when the operation is
    called, and an exception of [getHeaders()] is one of the operation.
    The observable is taken as subscribed to once, when the operation is
    called: the request counts as handed to [HttpClient] then, and its
    reply arrives later. *)
Definition http_request (now : Z) (m : Method) (path : string) (b : option JSValue)
    : Eff unit :=
  let* h := getHeaders now in
  let* cfg := gets config in
  modify (http_send {| method := m;
                       url := template (ReownConfig.baseUrl cfg) +:+ path;
                       body := b; headers := h |}).

(** The [catchError] every operation but [signOut] ends with. *)
Definition rethrow {A : Type} (what : string) (error : HttpErrorResponse)
    : Eff (Outcome A) :=
  let* _ := modify (console_log ("ReownAppKit: " +:+ what)) in
  ret (Errors (or_else (message error) what)).

(** *** The operations

    Each operation that talks to the server is written in three parts: the
    request [this.http.<method>(...)], built and handed over when the
    operation is called; the [pipe(...)] on it, whose callbacks run when
    the reply arrives; and the operation with its [reply] arriving before
    anything else happens. *)

(** [signUp(email, password, userData?)] *)
Definition signUp_post (email password : string) (userData : option PartialUser.t)
    (now : Z) : Eff unit :=
  http_request now POST "/users"
    (Some (JObject (spread [("email", JString email); ("password", JString password)]
                      (default [] userData)))).

Definition signUp_pipe (reply : HttpReply SignUpResponse) : Eff (Outcome ReownUser.t) :=
  match reply with
  | HttpSuccess response =>
      let* _ := setToken (signUp_token response) in
      let* _ := modify (next_currentUser (Some (signUp_user response))) in
      ret (Emits (signUp_user response))
  | HttpFailure error => rethrow "Sign up failed" error
  end.

Definition signUp (email password : string) (userData : option PartialUser.t)
    (now : Z) (reply : HttpReply SignUpResponse) : Eff (Outcome ReownUser.t) :=
  let* _ := signUp_post email password userData now in
  signUp_pipe reply.

(** [signIn(email, password)] *)
Definition signIn_post (email password : string) (now : Z) : Eff unit :=
  http_request now POST "/sessions"
    (Some (JObject [("email", JString email); ("password", JString password)])).

Definition signIn_pipe (reply : HttpReply SignInResponse) : Eff (Outcome ReownSession.t) :=
  match reply with
  | HttpSuccess response =>
      let* _ := setToken (signIn_token response) in
      let* _ := modify (next_currentUser (Some (signIn_user response))) in
      let* _ := modify (next_currentSession (Some (signIn_session response))) in
      ret (Emits (signIn_session response))
  | HttpFailure error => rethrow "Sign in failed" error
  end.

Definition signIn (email password : string)
    (now : Z) (reply : HttpReply SignInResponse) : Eff (Outcome ReownSession.t) :=
  let* _ := signIn_post email password now in
  signIn_pipe reply.

(** [signOut()] *)
Definition signOut_delete (sessionId : option string) (now : Z) : Eff unit :=
  http_request now DELETE ("/sessions/" +:+ template sessionId) None.

Definition signOut_pipe (reply : HttpReply unit) : Eff (Outcome unit) :=
  match reply with
  | HttpSuccess _ =>
      let* _ := clearSession in
      ret (Emits tt)
  | HttpFailure error =>
      let* _ := modify (console_log "ReownAppKit: Sign out failed") in
      let* _ := clearSession in
      ret (Emits tt)
  end.

Definition signOut (now : Z) (reply : HttpReply unit) : Eff (Outcome unit) :=
  let* session := gets (fun w => value (currentSessionSubject w)) in
  let sessionId := option_map ReownSession.id session in
  if negb (truthy sessionId) then
    let* _ := clearSession in
    ret (Emits tt)
  else
    let* _ := signOut_delete sessionId now in
    signOut_pipe reply.

(** [getUser()] *)
Definition getUser_get (now : Z) : Eff unit :=
  http_request now GET "/users/me" None.

Definition getUser_pipe (reply : HttpReply UserResponse) : Eff (Outcome ReownUser.t) :=
  match reply with
  | HttpSuccess response =>
      let* _ := modify (next_currentUser (Some (response_user response))) in
      ret (Emits (response_user response))
  | HttpFailure error => rethrow "Get user failed" error
  end.

Definition getUser (now : Z) (reply : HttpReply UserResponse) : Eff (Outcome ReownUser.t) :=
  let* _ := getUser_get now in
  getUser_pipe reply.

(** [updateUser(userData)] *)
Definition updateUser_patch (userData : PartialUser.t) (now : Z) : Eff unit :=
  http_request now PATCH "/users/me" (Some (JObject userData)).

Definition updateUser_pipe (reply : HttpReply UserResponse) : Eff (Outcome ReownUser.t) :=
  match reply with
  | HttpSuccess response =>
      let* _ := modify (next_currentUser (Some (response_user response))) in
      ret (Emits (response_user response))
  | HttpFailure error => rethrow "Update user failed" error
  end.

Definition updateUser (userData : PartialUser.t)
    (now : Z) (reply : HttpReply UserResponse) : Eff (Outcome ReownUser.t) :=
  let* _ := updateUser_patch userData now in
  updateUser_pipe reply.

(** [requestPasswordReset(email)] *)
Definition requestPasswordReset_post (email : string) (now : Z) : Eff unit :=
  http_request now POST "/password-reset" (Some (JObject [("email", JString email)])).

Definition requestPasswordReset_pipe (reply : HttpReply unit) : Eff (Outcome unit) :=
  match reply with
  | HttpSuccess response => ret (Emits response)
  | HttpFailure error => rethrow "Request password reset failed" error
  end.

Definition requestPasswordReset (email : string)
    (now : Z) (reply : HttpReply unit) : Eff (Outcome unit) :=
  let* _ := requestPasswordReset_post email now in
  requestPasswordReset_pipe reply.

(** [resetPassword(token, newPassword)] *)
Definition resetPassword_post (token newPassword : string) (now : Z) : Eff unit :=
  http_request now POST "/password-reset/confirm"
    (Some (JObject [("token", JString token); ("password", JString newPassword)])).

Definition resetPassword_pipe (reply : HttpReply unit) : Eff (Outcome unit) :=
  match reply with
  | HttpSuccess response => ret (Emits response)
  | HttpFailure error => rethrow "Reset password failed" error
  end.

Definition resetPassword (token newPassword : string)
    (now : Z) (reply : HttpReply unit) : Eff (Outcome unit) :=
  let* _ := resetPassword_post token newPassword now in
  resetPassword_pipe reply.

(** [isAuthenticated()]: [&&] reads the token only when a user is set. *)
Definition isAuthenticated (now : Z) : Eff bool :=
  let* user := gets (fun w => value (currentUserSubject w)) in
  match user with
  | None => ret false
  | Some _ =>
      let* token := getStoredToken now in
      ret (ToBoolean token)
  end.

(** *** Requests in flight

    A reply arrives some time after the call that asked for it, and the
    application can make other calls in between. *)

(** A call of the application, with the reply its request is going to
    get. *)
Inductive Operation : Type :=
| SignUp (email password : string) (userData : option PartialUser.t)
    (reply : HttpReply SignUpResponse)
| SignIn (email password : string) (reply : HttpReply SignInResponse)
| SignOut (reply : HttpReply unit)
| GetUser (reply : HttpReply UserResponse)
| UpdateUser (userData : PartialUser.t) (reply : HttpReply UserResponse)
| RequestPasswordReset (email : string) (reply : HttpReply unit)
| ResetPassword (token newPassword : string) (reply : HttpReply unit)
| IsAuthenticated
| GetStoredToken.

(** The call itself, with the clock at [now]: what the operation does
    before any reply arrives, and the request it leaves in flight, if it
    leaves one. *)
Definition call (now : Z) (op : Operation) : Eff (list Operation) :=
  match op with
  | SignUp email password userData _ =>
      let* _ := signUp_post email password userData now in ret [op]
  | SignIn email password _ =>
      let* _ := signIn_post email password now in ret [op]
  | SignOut _ =>
      let* session := gets (fun w => value (currentSessionSubject w)) in
      let sessionId := option_map ReownSession.id session in
      if negb (truthy sessionId) then
        let* _ := clearSession in
        ret []
      else
        let* _ := signOut_delete sessionId now in ret [op]
  | GetUser _ =>
      let* _ := getUser_get now in ret [op]
  | UpdateUser userData _ =>
      let* _ := updateUser_patch userData now in ret [op]
  | RequestPasswordReset email _ =>
      let* _ := requestPasswordReset_post email now in ret [op]
  | ResetPassword token newPassword _ =>
      let* _ := resetPassword_post token newPassword now in ret [op]
  | IsAuthenticated =>
      let* _ := isAuthenticated now in ret []
  | GetStoredToken =>
      let* _ := getStoredToken now in ret []
  end.

(** The arrival of the reply to a request in flight: the callbacks of the
    operation's pipe run.  They do not read the clock. *)
Definition arrive (op : Operation) : Eff unit :=
  match op with
  | SignUp _ _ _ reply => let* _ := signUp_pipe reply in ret tt
  | SignIn _ _ reply => let* _ := signIn_pipe reply in ret tt
  | SignOut reply => let* _ := signOut_pipe reply in ret tt
  | GetUser reply => let* _ := getUser_pipe reply in ret tt
  | UpdateUser _ reply => let* _ := updateUser_pipe reply in ret tt
  | RequestPasswordReset _ reply => let* _ := requestPasswordReset_pipe reply in ret tt
  | ResetPassword _ _ reply => let* _ := resetPassword_pipe reply in ret tt
  | IsAuthenticated | GetStoredToken => ret tt
  end.

(** A service: its fields, and its requests in flight, oldest first. *)
Record Service : Type := {
  world : World;
  in_flight : list Operation
}.

(** [restoreSession()]: [this.getUser().subscribe()] builds the request
    and leaves its reply to arrive later; nobody listens to what the
    observable delivers (an error it delivers is reported out of band).
    The clock is read twice: by the token read, at [now], and when the
    headers of the request are built, at [now']. *)
Definition restoreSession (now now' : Z) (reply : HttpReply UserResponse)
    : Eff (list Operation) :=
  let* token := getStoredToken now in
  if ToBoolean token then call now' (GetUser reply)
  else ret [].

(** [init(config)]: [{...this.config, ...config}]; an optional field the
    argument does not carry keeps its value. *)
Definition init (c : ReownConfig.t) : Eff unit :=
  let* old := gets config in
  let pick {A : Type} (new_ old_ : option A) : option A :=
    match new_ with
    | Some x => Some x
    | None => old_
    end in
  modify (set_config
    {| ReownConfig.apiKey := ReownConfig.apiKey c;
       ReownConfig.organizationId :=
         pick (ReownConfig.organizationId c) (ReownConfig.organizationId old);
       ReownConfig.environment :=
         pick (ReownConfig.environment c) (ReownConfig.environment old);
       ReownConfig.baseUrl := pick (ReownConfig.baseUrl c) (ReownConfig.baseUrl old) |}).

(** The fields as the constructor leaves them before it restores the
    session, in a browser whose [localStorage] holds [storage]. *)
Definition initial_world (injected : option ReownConfig.t) (storage : gmap string string)
    : World :=
  let warned :=
    match injected with
    | None => ["ReownAppKit: No configuration provided."]
    | Some _ => []
    end in
  let c :=
    match injected with
    | Some c => c
    | None => {| ReownConfig.apiKey := ""; ReownConfig.organizationId := None;
                 ReownConfig.environment := None; ReownConfig.baseUrl := None |}
    end in
  let c :=
    {| ReownConfig.apiKey := ReownConfig.apiKey c;
       ReownConfig.organizationId := ReownConfig.organizationId c;
       ReownConfig.environment :=
         Some (match ReownConfig.environment c with
               | Some e => e
               | None => production
               end);
       ReownConfig.baseUrl :=
         Some (or_else (ReownConfig.baseUrl c) DEFAULT_BASE_URL) |} in
  {| localStorage := storage; config := c;
     currentUserSubject := new_BehaviorSubject None;
     currentSessionSubject := new_BehaviorSubject None;
     console := warned; network := [] |}.

(** [new ReownAppKitService(http, config?)] with the clock at [now] and
    then at [now']: the service as the constructor leaves it, the request
    of the restore still in flight, or [None] when the constructor
    throws. *)
Definition constructor (injected : option ReownConfig.t) (storage : gmap string string)
    (now now' : Z) (reply : HttpReply UserResponse) : option Service :=
  match restoreSession now now' reply (initial_world injected storage) with
  | (Normal flying, w) => Some {| world := w; in_flight := flying |}
  | (Thrown _, _) => None
  end.

End Service.

(** ** A reference runtime

    [JSON.parse] for the JSON texts whose numbers are integers and whose
    [\u] escapes are below 256, [Date.parse] for the format
    [YYYY-MM-DDTHH:mm:ss.sssZ] that [Date.prototype.toISOString] writes
    (years 0000 to 9999), and [JSON.stringify] for a token object.  [None]
    is a syntax error or a text outside the fragment. *)

Module Reference.

Definition quote : ascii := "034"%char.
Definition backslash : ascii := "092"%char.

Definition code (c : ascii) : Z := Z.of_nat (nat_of_ascii c).

Definition is_space (c : ascii) : bool :=
  (code c =? 32)%Z || (code c =? 9)%Z || (code c =? 10)%Z || (code c =? 13)%Z.

Fixpoint skip_space (l : list ascii) : list ascii :=
  match l with
  | c :: r => if is_space c then skip_space r else l
  | [] => []
  end.

Definition digit_value (c : ascii) : option Z :=
  if ((48 <=? code c) && (code c <=? 57))%Z then Some (code c - 48)%Z else None.

Definition is_digit (c : ascii) : bool :=
  match digit_value c with
  | Some _ => true
  | None => false
  end.

Definition hex_value (c : ascii) : option Z :=
  if ((48 <=? code c) && (code c <=? 57))%Z then Some (code c - 48)%Z
  else if ((65 <=? code c) && (code c <=? 70))%Z then Some (code c - 55)%Z
  else if ((97 <=? code c) && (code c <=? 102))%Z then Some (code c - 87)%Z
  else None.

Fixpoint strip_prefix (p l : list ascii) : option (list ascii) :=
  match p, l with
  | [], _ => Some l
  | a :: p', b :: l' => if Ascii.eqb a b then strip_prefix p' l' else None
  | _ :: _, [] => None
  end.

Fixpoint parse_digits (acc : Z) (l : list ascii) : Z * list ascii :=
  match l with
  | c :: r =>
      match digit_value c with
      | Some d => parse_digits (10 * acc + d)%Z r
      | None => (acc, l)
      end
  | [] => (acc, [])
  end.

(** [0] or a digit string with no leading zero; a fraction or an exponent is
    outside the fragment. *)
Definition parse_natural (l : list ascii) : option (Z * list ascii) :=
  match l with
  | c :: r =>
      match digit_value c with
      | Some d =>
          let (n, rest) := if (d =? 0)%Z then (0%Z, r) else parse_digits d r in
          match rest with
          | x :: _ =>
              if is_digit x || Ascii.eqb x "." || Ascii.eqb x "e" || Ascii.eqb x "E"
              then None else Some (n, rest)
          | [] => Some (n, rest)
          end
      | None => None
      end
  | [] => None
  end.

Definition parse_number (l : list ascii) : option (JSValue * list ascii) :=
  match l with
  | c :: r =>
      if Ascii.eqb c "-"
      then match parse_natural r with
           | Some (n, rest) => Some (JNumber (Finite (inject_Z (- n))), rest)
           | None => None
           end
      else match parse_natural l with
           | Some (n, rest) => Some (JNumber (Finite (inject_Z n)), rest)
           | None => None
           end
  | [] => None
  end.

Definition unescape (e : ascii) : option ascii :=
  if Ascii.eqb e quote then Some quote
  else if Ascii.eqb e backslash then Some backslash
  else if Ascii.eqb e "/" then Some "/"%char
  else if Ascii.eqb e "b" then Some "008"%char
  else if Ascii.eqb e "f" then Some "012"%char
  else if Ascii.eqb e "n" then Some "010"%char
  else if Ascii.eqb e "r" then Some "013"%char
  else if Ascii.eqb e "t" then Some "009"%char
  else None.

(** The characters of a string literal after its opening quote. *)
Fixpoint parse_chars (l : list ascii) : option (string * list ascii) :=
  match l with
  | [] => None
  | c :: r =>
      if Ascii.eqb c quote then Some ("", r)
      else if Ascii.eqb c backslash then
        match r with
        | "u"%char :: a :: b :: c1 :: d :: r' =>
            match hex_value a, hex_value b, hex_value c1, hex_value d with
            | Some 0%Z, Some 0%Z, Some h, Some k =>
                match parse_chars r' with
                | Some (s, rest) =>
                    Some (String (ascii_of_nat (Z.to_nat (16 * h + k))) s, rest)
                | None => None
                end
            | _, _, _, _ => None
            end
        | e :: r' =>
            match unescape e, parse_chars r' with
            | Some x, Some (s, rest) => Some (String x s, rest)
            | _, _ => None
            end
        | [] => None
        end
      else if (code c <? 32)%Z then None
      else
        match parse_chars r with
        | Some (s, rest) => Some (String c s, rest)
        | None => None
        end
  end.

Fixpoint parse_value (fuel : nat) (l : list ascii) : option (JSValue * list ascii) :=
  match fuel with
  | O => None
  | S fuel =>
      match skip_space l with
      | [] => None
      | c :: r =>
          if Ascii.eqb c quote then
            match parse_chars r with
            | Some (s, rest) => Some (JString s, rest)
            | None => None
            end
          else if Ascii.eqb c "[" then
            match skip_space r with
            | x :: r' =>
                if Ascii.eqb x "]" then Some (JArray [], r')
                else match parse_elements fuel r with
                     | Some (vs, rest) => Some (JArray vs, rest)
                     | None => None
                     end
            | [] => None
            end
          else if Ascii.eqb c "{" then
            match skip_space r with
            | x :: r' =>
                if Ascii.eqb x "}" then Some (JObject [], r')
                else match parse_members fuel [] r with
                     | Some (fs, rest) => Some (JObject fs, rest)
                     | None => None
                     end
            | [] => None
            end
          else
            match strip_prefix (list_ascii_of_string "null") (c :: r),
                  strip_prefix (list_ascii_of_string "true") (c :: r),
                  strip_prefix (list_ascii_of_string "false") (c :: r) with
            | Some rest, _, _ => Some (JNull, rest)
            | _, Some rest, _ => Some (JBoolean true, rest)
            | _, _, Some rest => Some (JBoolean false, rest)
            | None, None, None => parse_number (c :: r)
            end
      end
  end
with parse_elements (fuel : nat) (l : list ascii) : option (list JSValue * list ascii) :=
  match fuel with
  | O => None
  | S fuel =>
      match parse_value fuel l with
      | Some (v, r) =>
          match skip_space r with
          | x :: r' =>
              if Ascii.eqb x "," then
                match parse_elements fuel r' with
                | Some (vs, rest) => Some (v :: vs, rest)
                | None => None
                end
              else if Ascii.eqb x "]" then Some ([v], r')
              else None
          | [] => None
          end
      | None => None
      end
  end
with parse_members (fuel : nat) (acc : list (string * JSValue)) (l : list ascii)
    : option (list (string * JSValue) * list ascii) :=
  match fuel with
  | O => None
  | S fuel =>
      match skip_space l with
      | q :: r =>
          if Ascii.eqb q quote then
            match parse_chars r with
            | Some (k, r1) =>
                match skip_space r1 with
                | colon :: r2 =>
                    if Ascii.eqb colon ":" then
                      match parse_value fuel r2 with
                      | Some (v, r3) =>
                          (* a repeated key keeps its place and takes the last value *)
                          let acc' := set_field k v acc in
                          match skip_space r3 with
                          | x :: r4 =>
                              if Ascii.eqb x "," then parse_members fuel acc' r4
                              else if Ascii.eqb x "}" then Some (acc', r4)
                              else None
                          | [] => None
                          end
                      | None => None
                      end
                    else None
                | [] => None
                end
            | None => None
            end
          else None
      | [] => None
      end
  end.

Definition JSON_parse (s : string) : option JSValue :=
  let l := list_ascii_of_string s in
  match parse_value (S (length l)) l with
  | Some (v, rest) =>
      match skip_space rest with
      | [] => Some v
      | _ :: _ => None
      end
  | None => None
  end.

Local Open Scope Z_scope.

(** *** Dates: the proleptic Gregorian calendar, in days since the epoch *)

Definition days_from_civil (y m d : Z) : Z :=
  let y := if m <=? 2 then y - 1 else y in
  let era := y / 400 in
  let yoe := y - era * 400 in
  let doy := (153 * (if 2 <? m then m - 3 else m + 9) + 2) / 5 + d - 1 in
  let doe := yoe * 365 + yoe / 4 - yoe / 100 + doy in
  era * 146097 + doe - 719468.

Definition civil_from_days (z : Z) : Z * Z * Z :=
  let z := z + 719468 in
  let era := z / 146097 in
  let doe := z - era * 146097 in
  let yoe := (doe - doe / 1460 + doe / 36524 - doe / 146096) / 365 in
  let doy := doe - (365 * yoe + yoe / 4 - yoe / 100) in
  let mp := (5 * doy + 2) / 153 in
  let d := doy - (153 * mp + 2) / 5 + 1 in
  let m := if mp <? 10 then mp + 3 else mp - 9 in
  (yoe + era * 400 + (if m <=? 2 then 1 else 0), m, d).

(** [n] in [width] decimal digits, zero padded. *)
Fixpoint digits (width : nat) (n : Z) : string :=
  match width with
  | O => ""
  | S w => digits w (n / 10) +:+ String (ascii_of_nat (Z.to_nat (48 + n mod 10))) ""
  end.

(** [new Date(t).toISOString()] *)
Definition toISOString (t : Z) : string :=
  let ms := t mod 86400000 in
  match civil_from_days (t / 86400000) with
  | (y, m, d) =>
      digits 4 y +:+ "-" +:+ digits 2 m +:+ "-" +:+ digits 2 d +:+ "T"
      +:+ digits 2 (ms / 3600000) +:+ ":" +:+ digits 2 (ms / 60000 mod 60) +:+ ":"
      +:+ digits 2 (ms / 1000 mod 60) +:+ "." +:+ digits 3 (ms mod 1000) +:+ "Z"
  end.

Fixpoint read_digits (width : nat) (acc : Z) (l : list ascii) : option (Z * list ascii) :=
  match width with
  | O => Some (acc, l)
  | S w =>
      match l with
      | c :: r =>
          match digit_value c with
          | Some d => read_digits w (10 * acc + d) r
          | None => None
          end
      | [] => None
      end
  end.

Definition expect (c : ascii) (l : list ascii) : option (list ascii) :=
  match l with
  | x :: r => if Ascii.eqb x c then Some r else None
  | [] => None
  end.

Definition Date_parse (s : string) : option Z :=
  '(y, l) ← read_digits 4 0 (list_ascii_of_string s);
  l ← expect "-" l;
  '(m, l) ← read_digits 2 0 l;
  l ← expect "-" l;
  '(d, l) ← read_digits 2 0 l;
  l ← expect "T" l;
  '(hh, l) ← read_digits 2 0 l;
  l ← expect ":" l;
  '(mm, l) ← read_digits 2 0 l;
  l ← expect ":" l;
  '(ss, l) ← read_digits 2 0 l;
  l ← expect "." l;
  '(ms, l) ← read_digits 3 0 l;
  l ← expect "Z" l;
  let days := days_from_civil y m d in
  match l, civil_from_days days with
  | [], (y', m', d') =>
      if (y' =? y) && (m' =? m) && (d' =? d) && (hh <=? 23) && (mm <=? 59) && (ss <=? 59)
      then Some (days * 86400000 + hh * 3600000 + mm * 60000 + ss * 1000 + ms)
      else None
  | _ :: _, _ => None
  end.

(** *** Writing a token *)

Definition hex_digit (n : Z) : ascii :=
  ascii_of_nat (Z.to_nat (if n <? 10 then 48 + n else 87 + n)).

Definition escape_char (c : ascii) : string :=
  if Ascii.eqb c quote then String backslash (String quote "")
  else if Ascii.eqb c backslash then String backslash (String backslash "")
  else if code c =? 8 then String backslash "b"
  else if code c =? 12 then String backslash "f"
  else if code c =? 10 then String backslash "n"
  else if code c =? 13 then String backslash "r"
  else if code c =? 9 then String backslash "t"
  else if code c <? 32
  then String backslash
         ("u00" +:+ String (hex_digit (code c / 16)) (String (hex_digit (code c mod 16)) ""))
  else String c "".

Fixpoint escape (s : string) : string :=
  match s with
  | EmptyString => ""
  | String c r => escape_char c +:+ escape r
  end.

Definition quoted (s : string) : string :=
  String quote (escape s) +:+ String quote "".

Definition JSON_stringify (t : ReownToken.t) : string :=
  "{" +:+ quoted "token" +:+ ":" +:+ quoted (ReownToken.token t) +:+ ","
  +:+ quoted "expiresAt" +:+ ":" +:+ quoted (toISOString (ReownToken.expiresAt t)) +:+ "}".

(** [String(n)]; the digits of a number that is not an integer are outside
    the fragment. *)
Definition Number_toString (n : JSNumber) : string :=
  match n with
  | Finite q =>
      if Qnum q mod Z.pos (Qden q) =? 0
      then NilZero.string_of_int (Z.to_int (Qnum q / Z.pos (Qden q)))
      else "NaN"
  | PosInfinity => "Infinity"
  | NegInfinity => "-Infinity"
  | NaN => "NaN"
  end.

Definition runtime : JSRuntime :=
  Build_JSRuntime Number_toString Date_parse JSON_parse JSON_stringify eq_refl.

End Reference.

(** ** Vocabulary of the specification *)

Definition stored_text (w : World) : option string := getItem tokenStorageKey w.

Definition current_user (w : World) : option ReownUser.t :=
  value (currentUserSubject w).

Definition current_session (w : World) : option ReownSession.t :=
  value (currentSessionSubject w).

(** The state the specification speaks of: the current user, the current
    session and the stored token text. *)
Definition session_state (w : World)
    : option ReownUser.t * option ReownSession.t * option string :=
  (current_user w, current_session w, stored_text w).

(** The call returns: it does not throw. *)
Definition completes {A : Type} (r : Completion A * World) : Prop :=
  exists a, fst r = Normal a.

(** The header [name] of the headers a call built, if it built them and
    they have it. *)
Definition header (r : Completion (gmap string string) * World) (name : string)
    : option string :=
  match fst r with
  | Normal h => h !! name
  | Thrown _ => None
  end.

Section Vocabulary.
Context {rt : JSRuntime}.

(** The stored text is not JSON. *)
Definition fails_to_parse (s : string) : Prop := JSON_parse s = None.

(** The stored text is the JSON text [null]. *)
Definition parses_to_null (s : string) : Prop :=
  exists v, JSON_parse s = Some v /\ nullish v = true.

(** The stored text carries an [expiresAt] that [new Date] cannot convert. *)
Definition unreadable_expiry (s : string) : Prop :=
  exists v, JSON_parse s = Some v /\ nullish v = false
    /\ new_Date (member v "expiresAt") = None.

(** The stored text carries an [expiresAt] strictly before [now]. *)
Definition expired_at (now : Z) (s : string) : Prop :=
  exists v t, JSON_parse s = Some v
    /\ new_Date (member v "expiresAt") = Some (Some t) /\ (t < now)%Z.

(** A token (models/index.ts: a [token] string and an [expiresAt]
    instant) that has not expired at [now]. *)
Definition valid_token (now : Z) (v : JSValue) : Prop :=
  exists tok t, member v "token" = JString tok
    /\ new_Date (member v "expiresAt") = Some (Some t) /\ (now <= t)%Z.

(** A currently valid token is stored: present, parseable, not expired. *)
Definition valid_token_stored (now : Z) (w : World) : Prop :=
  exists s v, stored_text w = Some s /\ JSON_parse s = Some v /\ valid_token now v.

(** The same words without the token: a text is stored, it parses, and it
    carries no [expiresAt] strictly before [now]. *)
Definition parseable_unexpired_stored (now : Z) (w : World) : Prop :=
  exists s v, stored_text w = Some s /\ JSON_parse s = Some v /\ ~ expired_at now s.

(** What the service itself asks of the stored text: it parses to a value
    that is truthy, and [new Date] of its [expiresAt] is an Invalid Date or
    an instant not before [now]. *)
Definition accepted (now : Z) (w : World) : Prop :=
  exists s v d, stored_text w = Some s /\ JSON_parse s = Some v
    /\ ToBoolean v = true
    /\ new_Date (member v "expiresAt") = Some d
    /\ (forall t, d = Some t -> (now <= t)%Z).

(** The stored text is one a read clears: not empty, and not JSON, [null],
    with an unreadable [expiresAt], or expired. *)
Definition stale (now : Z) (w : World) : Prop :=
  exists s, stored_text w = Some s /\ s <> ""
    /\ (fails_to_parse s \/ parses_to_null s \/ unreadable_expiry s \/ expired_at now s).

(** The stored text parses to a value whose [token] has the string [b]. *)
Definition bearer (w : World) (b : string) : Prop :=
  exists s v, stored_text w = Some s /\ JSON_parse s = Some v
    /\ ToString (member v "token") = Some b.

(** The stored text parses to a value whose [token] has no string. *)
Definition unprintable_token (w : World) : Prop :=
  exists s v, stored_text w = Some s /\ JSON_parse s = Some v
    /\ ToString (member v "token") = None.

(** [JSON.parse(JSON.stringify(token))] gives the token back: its [token]
    string, and an [expiresAt] that [new Date] reads as the same instant. *)
Definition persists (token : ReownToken.t) : Prop :=
  exists v, JSON_parse (JSON_stringify token) = Some v
    /\ member v "token" = JString (ReownToken.token token)
    /\ new_Date (member v "expiresAt") = Some (Some (ReownToken.expiresAt token)).

(** The world after [clearSession()]. *)
Definition cleared (w : World) : World := snd (clearSession w).

(** The headers that do not depend on the stored token. *)
Definition static_headers (cfg : ReownConfig.t) : gmap string string :=
  if truthy (ReownConfig.organizationId cfg)
  then <["X-Organization-ID" := default "" (ReownConfig.organizationId cfg)]>
         (<["X-API-Key" := ReownConfig.apiKey cfg]>
            (<["Content-Type" := "application/json"]> ∅))
  else <["X-API-Key" := ReownConfig.apiKey cfg]>
         (<["Content-Type" := "application/json"]> ∅).

(** What [getStoredToken()] returns. *)
Definition read_token (now : Z) (w : World) : JSValue :=
  match fst (getStoredToken now w) with
  | Normal v => v
  | Thrown _ => JNull
  end.

(** The ways a read of the stored token ends. *)
Inductive read_result (now : Z) (w : World) : Completion JSValue * World -> Prop :=
| read_absent :
    stored_text w = None -> read_result now w (Normal JNull, w)
| read_empty :
    stored_text w = Some "" -> read_result now w (Normal JNull, w)
| read_stale :
    stale now w -> read_result now w (Normal JNull, cleared w)
| read_kept s v d :
    stored_text w = Some s -> JSON_parse s = Some v -> nullish v = false ->
    new_Date (member v "expiresAt") = Some d -> Date_lt_now d now = false ->
    read_result now w (Normal v, w).

(** The ways the building of the headers ends. *)
Inductive headers_result (now : Z) (w : World)
    : Completion (gmap string string) * World -> Prop :=
| headers_plain :
    ~ accepted now w ->
    headers_result now w
      (Normal (static_headers (config w)), snd (getStoredToken now w))
| headers_bearer b :
    accepted now w -> bearer w b ->
    headers_result now w
      (Normal (<["Authorization" := "Bearer " +:+ b]> (static_headers (config w))), w)
| headers_thrown :
    accepted now w -> unprintable_token w ->
    headers_result now w (Thrown TypeError, w).

(** The invariant of the data model: a current user only with a valid
    stored token. *)
Definition session_invariant (now : Z) (w : World) : Prop :=
  current_user w <> None -> valid_token_stored now w.

(** *** Runs of the service *)

(** The world after one operation called with the clock at [now] whose
    reply arrives before anything else happens, whether the call returned
    or threw. *)
Definition run (now : Z) (op : Operation) (w : World) : World :=
  match op with
  | SignUp email password userData reply => snd (signUp email password userData now reply w)
  | SignIn email password reply => snd (signIn email password now reply w)
  | SignOut reply => snd (signOut now reply w)
  | GetUser reply => snd (getUser now reply w)
  | UpdateUser userData reply => snd (updateUser userData now reply w)
  | RequestPasswordReset email reply => snd (requestPasswordReset email now reply w)
  | ResetPassword token newPassword reply => snd (resetPassword token newPassword now reply w)
  | IsAuthenticated => snd (isAuthenticated now w)
  | GetStoredToken => snd (getStoredToken now w)
  end.

(** The world after a run of such operations, each with the reading of
    the clock at its call. *)
Definition run_all (ops : list (Z * Operation)) (w : World) : World :=
  fold_left (fun w step => run (fst step) (snd step) w) ops w.

(** The operation builds a request. *)
Definition sends (op : Operation) (w : World) : bool :=
  match op with
  | SignOut _ => truthy (option_map ReownSession.id (current_session w))
  | IsAuthenticated | GetStoredToken => false
  | _ => true
  end.

(** What happens to a service: the application calls an operation, with
    the clock at [now], or the reply to its [n]-th request in flight
    arrives. *)
Inductive Event : Type :=
| Calls (now : Z) (op : Operation)
| Arrives (n : nat).

(** A call that throws leaves nothing in flight; the arrival of a reply
    nobody waits for is no event. *)
Definition step (e : Event) (s : Service) : Service :=
  match e with
  | Calls now op =>
      match call now op (world s) with
      | (Normal flying, w) => {| world := w; in_flight := in_flight s ++ flying |}
      | (Thrown _, w) => {| world := w; in_flight := in_flight s |}
      end
  | Arrives n =>
      match in_flight s !! n with
      | Some op => {| world := snd (arrive op (world s));
                      in_flight := delete n (in_flight s) |}
      | None => s
      end
  end.

Definition steps (events : list Event) (s : Service) : Service :=
  fold_left (fun s e => step e s) events s.

(** The reading of the clock at the last call of [events], [t0] if there
    is none. *)
Fixpoint last_call (t0 : Z) (events : list Event) : Z :=
  match events with
  | [] => t0
  | Calls t _ :: rest => last_call t rest
  | Arrives _ :: rest => last_call t0 rest
  end.

(** The states a service can be in, with the clock reading of each: as
    the constructor leaves it, after a call, after the arrival of a reply,
    and later with nothing in between. *)
Inductive reachable : Z -> Service -> Prop :=
| reachable_constructor injected storage now now' reply s :
    (now <= now')%Z ->
    constructor injected storage now now' reply = Some s -> reachable now' s
| reachable_calls now s now' op :
    reachable now s -> (now <= now')%Z -> reachable now' (step (Calls now' op) s)
| reachable_arrives now s n :
    reachable now s -> reachable now (step (Arrives n) s)
| reachable_later now s now' :
    reachable now s -> (now <= now')%Z -> reachable now' s.

(** A reply the server of the specification can give to a call made at
    [now]: a token it issues persists and has not expired, and it answers
    for the current user only to a request that carried a valid token. *)
Definition plausible (now : Z) (op : Operation) (w : World) : Prop :=
  match op with
  | SignUp _ _ _ (HttpSuccess r) =>
      persists (signUp_token r) /\ (now <= ReownToken.expiresAt (signUp_token r))%Z
  | SignIn _ _ (HttpSuccess r) =>
      persists (signIn_token r) /\ (now <= ReownToken.expiresAt (signIn_token r))%Z
  | GetUser (HttpSuccess _) | UpdateUser _ (HttpSuccess _) => valid_token_stored now w
  | _ => True
  end.

(** Every call of the run gets a plausible reply. *)
Fixpoint plausible_run (events : list Event) (s : Service) : Prop :=
  match events with
  | [] => True
  | e :: rest =>
      match e with
      | Calls t op => plausible t op (world s)
      | Arrives _ => True
      end
      /\ plausible_run rest (step e s)
  end.

(** The application awaits every reply: it calls an operation only when
    no request is in flight. *)
Fixpoint awaits (events : list Event) (s : Service) : Prop :=
  match events with
  | [] => True
  | e :: rest =>
      match e with
      | Calls _ _ => in_flight s = []
      | Arrives _ => True
      end
      /\ awaits rest (step e s)
  end.

(** What an awaited run keeps as of the time [now] of its last call: the
    session invariant, and at most one request in flight, with a
    plausible reply. *)
Definition awaited_invariant (now : Z) (s : Service) : Prop :=
  session_invariant now (world s)
  /\ (in_flight s = []
      \/ exists op, in_flight s = [op] /\ plausible now op (world s)).

(** *** The rest of the service *)

(** What an operation that only reads the token can change at most through
    that read: the storage, both subjects with what they sent, and the
    configuration. *)
Definition service_state (w : World)
    : gmap string string * BehaviorSubject (option ReownUser.t)
      * BehaviorSubject (option ReownSession.t) * ReownConfig.t :=
  (localStorage w, currentUserSubject w, currentSessionSubject w, config w).

(** The token the reply of an operation brings. *)
Definition issued_token (op : Operation) : option ReownToken.t :=
  match op with
  | SignUp _ _ _ (HttpSuccess r) => Some (signUp_token r)
  | SignIn _ _ (HttpSuccess r) => Some (signIn_token r)
  | _ => None
  end.

(** The user the reply of an operation brings. *)
Definition issued_user (op : Operation) : option ReownUser.t :=
  match op with
  | SignUp _ _ _ (HttpSuccess r) => Some (signUp_user r)
  | SignIn _ _ (HttpSuccess r) => Some (signIn_user r)
  | GetUser (HttpSuccess r) | UpdateUser _ (HttpSuccess r) => Some (response_user r)
  | _ => None
  end.

(** The names of the headers the service knows. *)
Definition header_names : list string :=
  ["Content-Type"; "X-API-Key"; "X-Organization-ID"; "Authorization"].

End Vocabulary.

(** ** Worlds of the examples *)

Module Example.

(** A JSON text written with ['] for the double quote. *)
Fixpoint js (s : string) : string :=
  match s with
  | EmptyString => EmptyString
  | String c r => String (if Ascii.eqb c "'" then Reference.quote else c) (js r)
  end.

(** 2026-11-03T08:00:00.000Z *)
Definition now : Z := 1793692800000.

Definition u1 : ReownUser.t :=
  {| ReownUser.id := "u1"; ReownUser.email := "ada@example.org";
     ReownUser.firstName := Some "Ada"; ReownUser.lastName := None;
     ReownUser.metadata := None |}.

Definition s1 : ReownSession.t :=
  {| ReownSession.id := "s1"; ReownSession.userId := "u1";
     ReownSession.expiresAt := now + 3600000; ReownSession.metadata := None |}.

(** A token good for one hour from [now]. *)
Definition t1 : ReownToken.t :=
  {| ReownToken.token := "t1"; ReownToken.expiresAt := now + 3600000 |}.

(** A token that expired one second before [now]. *)
Definition t0 : ReownToken.t :=
  {| ReownToken.token := "t0"; ReownToken.expiresAt := now - 1000 |}.

(** The texts [JSON.stringify] stores for them. *)
Definition t1_text : string := JSON_stringify (JSRuntime := Reference.runtime) t1.
Definition t0_text : string := JSON_stringify (JSRuntime := Reference.runtime) t0.

(** A JSON text that is no token: its [token] is an object with an own
    [toString]. *)
Definition odd_text : string := js "{'token':{'toString':1}}".

Definition cfg : ReownConfig.t :=
  {| ReownConfig.apiKey := "key-123"; ReownConfig.organizationId := Some "org-9";
     ReownConfig.environment := None; ReownConfig.baseUrl := None |}.

Definition failure : HttpErrorResponse := {| message := Some "Invalid credentials" |}.

Definition silent_failure : HttpErrorResponse := {| message := None |}.

(** A service that has just started in a browser with nothing stored. *)
Definition started : World := initial_world (Some cfg) ∅.

(** A world whose subjects hold [u1] and [s1] and whose storage holds the
    text [s] under the token key. *)
Definition signed_in_with (s : string) : World :=
  {| localStorage := {[ tokenStorageKey := s ]};
     config := config started;
     currentUserSubject := next (Some u1) (new_BehaviorSubject None);
     currentSessionSubject := next (Some s1) (new_BehaviorSubject None);
     console := []; network := [] |}.

(** No user and no session, the text [s] stored. *)
Definition signed_out_with (s : string) : World :=
  {| localStorage := {[ tokenStorageKey := s ]};
     config := config started;
     currentUserSubject := new_BehaviorSubject None;
     currentSessionSubject := new_BehaviorSubject None;
     console := []; network := [] |}.

Definition sign_in_response : SignInResponse :=
  {| signIn_user := u1; signIn_session := s1; signIn_token := t1 |}.

Definition user_reply : HttpReply UserResponse :=
  HttpSuccess {| response_user := u1 |}.

(** The service just constructed in a browser with nothing stored. *)
Definition fresh : Service := {| world := started; in_flight := [] |}.

(** Started with nothing stored; then [getUser()] is called and answered
    with a user. *)
Definition answered : Service :=
  steps (rt := Reference.runtime) [Calls now (GetUser user_reply); Arrives 0] fresh.

(** Started with nothing stored; then a successful [signIn]. *)
Definition signed_in : Service :=
  steps (rt := Reference.runtime)
    [Calls now (SignIn "ada@example.org" "secret" (HttpSuccess sign_in_response));
     Arrives 0]
    fresh.

(** The service constructed in a browser that holds the token [t1], as
    the constructor leaves it: the request of the restore is in flight. *)
Definition restoring : Service :=
  default fresh
    (constructor (rt := Reference.runtime) (Some cfg) {[ tokenStorageKey := t1_text ]}
       now now user_reply).

(** The application signs out before the reply of the restore arrives. *)
Definition overtaken : Service :=
  steps (rt := Reference.runtime) [Calls now (SignOut (HttpSuccess tt)); Arrives 0]
    restoring.

(** One millisecond after [t1] expires. *)
Definition later : Z := now + 3600001.

(** What the server answers to a successful [signUp]. *)
Definition sign_up_response : SignUpResponse :=
  {| signUp_user := u1; signUp_token := t1 |}.

(** A session whose id is the empty string. *)
Definition s_anonymous : ReownSession.t :=
  {| ReownSession.id := ""; ReownSession.userId := "u1";
     ReownSession.expiresAt := now + 3600000; ReownSession.metadata := None |}.

(** The user [u1], the session [s_anonymous], the token [t1] stored. *)
Definition signed_in_anonymous : World :=
  {| localStorage := {[ tokenStorageKey := t1_text ]};
     config := config started;
     currentUserSubject := next (Some u1) (new_BehaviorSubject None);
     currentSessionSubject := next (Some s_anonymous) (new_BehaviorSubject None);
     console := []; network := [] |}.

(** A profile update that carries another e-mail address. *)
Definition new_email : PartialUser.t :=
  [("email", JString "countess@example.org"); ("lastName", JString "Lovelace")].

Definition other_cfg : ReownConfig.t :=
  {| ReownConfig.apiKey := "key-456"; ReownConfig.organizationId := Some "org-7";
     ReownConfig.environment := Some sandbox;
     ReownConfig.baseUrl := Some "https://sandbox.reown.com" |}.

(** A session of four calls, one minute apart. *)
Definition session : list (Z * Operation) :=
  [(now, SignIn "ada@example.org" "secret" (HttpSuccess sign_in_response));
   ((now + 60000)%Z, GetUser user_reply);
   ((now + 120000)%Z, IsAuthenticated);
   ((now + 180000)%Z, ResetPassword "reset-code" "secret2" (HttpFailure failure))].

(** The same session as the events of a service whose application awaits
    every reply. *)
Definition awaited_session : list Event :=
  [Calls now (SignIn "ada@example.org" "secret" (HttpSuccess sign_in_response));
   Arrives 0;
   Calls (now + 60000) (GetUser user_reply);
   Arrives 0;
   Calls (now + 120000) IsAuthenticated;
   Calls (now + 180000) (ResetPassword "reset-code" "secret2" (HttpFailure failure));
   Arrives 0].

End Example.

(** ** Properties *)

Section Properties.
Context {rt : JSRuntime}.

Ltac unfold_eff := unfold bind, ret, throw, try_catch, lift, gets, modify in *.

(** *** clearSession *)

Lemma cleared_stored_text (w : World) : stored_text (cleared w) = None.
Proof.
  unfold cleared, clearSession, stored_text, getItem. unfold_eff. simpl.
  apply lookup_delete_eq.
Qed.

Lemma cleared_current_user (w : World) : current_user (cleared w) = None.
Proof. reflexivity. Qed.

Lemma cleared_current_session (w : World) : current_session (cleared w) = None.
Proof. reflexivity. Qed.

Lemma cleared_network (w : World) : network (cleared w) = network w.
Proof. reflexivity. Qed.

(** *** getStoredToken *)

Lemma truthy_Some (o : option string) :
  truthy o = true -> exists s, o = Some s /\ s <> "".
Proof.
  destruct o as [s|]; simpl; [|discriminate].
  intros Hs. exists s. split; [reflexivity|].
  intros ->. discriminate.
Qed.

Lemma truthy_false (o : option string) :
  truthy o = false -> o = None \/ o = Some "".
Proof.
  destruct o as [s|]; simpl; [|now left].
  destruct (String.eqb_spec s ""); [subst; now right | discriminate].
Qed.

Lemma Date_lt_now_true (d : option Z) (now : Z) :
  Date_lt_now d now = true <-> exists t, d = Some t /\ (t < now)%Z.
Proof.
  destruct d as [t|]; simpl.
  - rewrite Z.ltb_lt. split.
    + intros Ht. exists t. auto.
    + intros (t' & Heq & Ht). congruence.
  - split; [discriminate|]. intros (t & Heq & _). discriminate.
Qed.

Lemma Date_lt_now_false (d : option Z) (now : Z) :
  Date_lt_now d now = false <-> forall t, d = Some t -> (now <= t)%Z.
Proof.
  destruct d as [t|]; simpl.
  - rewrite Z.ltb_ge. split.
    + intros Ht t' Heq. congruence.
    + intros Hall. apply Hall. reflexivity.
  - split; [discriminate | reflexivity].
Qed.

(** Every read ends in one of the four ways. *)
Lemma getStoredToken_cases (now : Z) (w : World) :
  read_result now w (getStoredToken now w).
Proof.
  unfold getStoredToken. unfold_eff. simpl.
  destruct (truthy (getItem tokenStorageKey w)) eqn:Htruthy; simpl.
  - apply truthy_Some in Htruthy as (s & Hs & Hne).
    rewrite Hs. simpl.
    destruct (JSON_parse s) as [v|] eqn:Hparse; simpl.
    + unfold get_property. destruct (nullish v) eqn:Hnull; simpl.
      * apply read_stale. exists s. split; [exact Hs | split; [exact Hne |]].
        right. left. exists v. auto.
      * destruct (new_Date (member v "expiresAt")) as [d|] eqn:Hdate; simpl.
        -- destruct (Date_lt_now d now) eqn:Hexp.
           ++ apply read_stale. exists s. split; [exact Hs | split; [exact Hne |]].
              right. right. right.
              apply Date_lt_now_true in Hexp as (t & -> & Hlt).
              exists v, t. auto.
           ++ apply read_kept with (s := s) (d := d); auto.
        -- apply read_stale. exists s. split; [exact Hs | split; [exact Hne |]].
           right. right. left. exists v. auto.
    + apply read_stale. exists s. split; [exact Hs | split; [exact Hne |]].
      left. exact Hparse.
  - apply truthy_false in Htruthy as [Hs | Hs].
    + now apply read_absent.
    + now apply read_empty.
Qed.

(** A read never throws. *)
Lemma getStoredToken_eq (now : Z) (w : World) :
  getStoredToken now w = (Normal (read_token now w), snd (getStoredToken now w)).
Proof.
  unfold read_token. destruct (getStoredToken_cases now w); reflexivity.
Qed.

Lemma stale_not_kept (now : Z) (w : World) (s : string) (v : JSValue) (d : option Z) :
  stored_text w = Some s -> JSON_parse s = Some v -> nullish v = false ->
  new_Date (member v "expiresAt") = Some d -> Date_lt_now d now = false ->
  ~ stale now w.
Proof.
  intros Hs Hparse Hnull Hdate Hfresh (s' & Hs' & _ & Hbad).
  assert (s' = s) as -> by congruence.
  destruct Hbad as [Hfail | [(v' & Hv' & Hn) | [(v' & Hv' & _ & Hd)
                   | (v' & t & Hv' & Ht & Hlt)]]].
  - unfold fails_to_parse in Hfail. congruence.
  - assert (v' = v) as -> by congruence. congruence.
  - assert (v' = v) as -> by congruence. congruence.
  - assert (v' = v) as -> by congruence.
    assert (d = Some t) as -> by congruence.
    simpl in Hfresh. apply Z.ltb_ge in Hfresh. lia.
Qed.

Lemma stored_not_empty (w : World) (s : string) (v : JSValue) :
  stored_text w = Some s -> JSON_parse s = Some v -> s <> "".
Proof.
  intros _ Hparse ->. rewrite JSON_parse_empty in Hparse. discriminate.
Qed.

(** A read that does not meet a stale text changes nothing. *)
Lemma getStoredToken_frame (now : Z) (w : World) :
  ~ stale now w -> snd (getStoredToken now w) = w.
Proof.
  intros Hfresh. destruct (getStoredToken_cases now w); auto. contradiction.
Qed.

(** A read that meets a stale text clears the session. *)
Lemma getStoredToken_stale (now : Z) (w : World) :
  stale now w -> getStoredToken now w = (Normal JNull, cleared w).
Proof.
  intros Hstale.
  destruct (getStoredToken_cases now w) as [Hs | Hs | _ | s v d Hs Hp Hn Hd Hf]; auto.
  - destruct Hstale as (s & Hs' & _). congruence.
  - destruct Hstale as (s & Hs' & Hne & _). congruence.
  - exfalso. eapply stale_not_kept; eauto.
Qed.

(** The empty text: null is returned and nothing is cleared. *)
Lemma getStoredToken_empty_text (now : Z) (w : World) :
  stored_text w = Some "" -> getStoredToken now w = (Normal JNull, w).
Proof.
  intros Hs.
  destruct (getStoredToken_cases now w) as [_ | _ | Hstale | s v d Hs' Hp _ _ _]; auto.
  - destruct Hstale as (s & Hs' & Hne & _). congruence.
  - exfalso. apply (stored_not_empty w s v Hs' Hp). congruence.
Qed.

(** C1 (amended): the token read returns null whenever the stored value is
    absent, or is a non-empty text that fails to parse or carries an
    [expiresAt] strictly before the current time, and afterwards the
    storage key is absent.  For the empty text it returns null as well,
    and leaves the world, the stored text included, as it was. *)
Theorem getStoredToken_clears_unusable (now : Z) (w : World) :
  (stored_text w = None
   \/ (exists s, stored_text w = Some s /\ s <> ""
         /\ (fails_to_parse s \/ expired_at now s)) ->
   fst (getStoredToken now w) = Normal JNull
   /\ stored_text (snd (getStoredToken now w)) = None)
  /\ (stored_text w = Some "" -> getStoredToken now w = (Normal JNull, w)).
Proof.
  split.
  - intros Hbad.
    assert (stored_text w = None \/ stale now w) as [Habsent | Hstale].
    { destruct Hbad as [Habsent | (s & Hs & Hne & [Hfail | Hexp])]; [now left | right ..].
      - exists s. auto.
      - exists s. auto 6. }
    + destruct (getStoredToken_cases now w) as [_ | Hs | Hstale | s v d Hs _ _ _ _]; simpl.
      * auto.
      * congruence.
      * split; [reflexivity | apply cleared_stored_text].
      * congruence.
    + rewrite (getStoredToken_stale now w Hstale). simpl.
      split; [reflexivity | apply cleared_stored_text].
  - apply getStoredToken_empty_text.
Qed.

(** C7 (amended): the token read never throws, and it returns null exactly
    when the stored value is absent, empty, or stale: a non-empty text
    that is not JSON, is the JSON [null], carries an [expiresAt] that
    cannot be converted, or one strictly before the current time.  Any
    other stored text is JSON and is returned as parsed, token-shaped or
    not, and the read changes nothing. *)
Theorem getStoredToken_null_iff (now : Z) (w : World) :
  completes (getStoredToken now w)
  /\ (fst (getStoredToken now w) = Normal JNull
      <-> stored_text w = None \/ stored_text w = Some "" \/ stale now w)
  /\ (forall s, stored_text w = Some s -> s <> "" -> ~ stale now w ->
        exists v, JSON_parse s = Some v /\ getStoredToken now w = (Normal v, w)).
Proof.
  split; [|split].
  - exists (read_token now w). rewrite getStoredToken_eq. reflexivity.
  - destruct (getStoredToken_cases now w) as [Hs | Hs | Hstale | s v d Hs Hp Hn Hd Hf];
      simpl.
    + tauto.
    + tauto.
    + tauto.
    + split.
      * intros Heq. injection Heq as ->. discriminate.
      * intros [Habs | [Hempty | Hstale]].
        -- congruence.
        -- exfalso. apply (stored_not_empty w s v Hs Hp). congruence.
        -- exfalso. eapply stale_not_kept; eauto.
  - intros s Hs Hne Hfresh.
    destruct (getStoredToken_cases now w) as [Hs' | Hs' | Hstale | s' v d Hs' Hp _ _ _].
    + congruence.
    + congruence.
    + contradiction.
    + assert (s' = s) as -> by congruence. exists v. split; [exact Hp | reflexivity].
Qed.

(** *** isAuthenticated *)

(** C10: with no current user, [isAuthenticated()] answers false and leaves
    the world as it was: the stored text, whatever it is, and both
    subjects, with no value sent to their subscribers. *)
Theorem isAuthenticated_without_user (now : Z) (w : World) :
  current_user w = None -> isAuthenticated now w = (Normal false, w).
Proof.
  unfold current_user, isAuthenticated. unfold_eff. simpl.
  intros ->. reflexivity.
Qed.

Lemma isAuthenticated_unfold (now : Z) (w : World) :
  isAuthenticated now w
  = match current_user w with
    | None => (Normal false, w)
    | Some _ => (Normal (ToBoolean (read_token now w)), snd (getStoredToken now w))
    end.
Proof.
  unfold current_user, isAuthenticated. unfold_eff. simpl.
  destruct (value (currentUserSubject w)); [|reflexivity].
  rewrite getStoredToken_eq. reflexivity.
Qed.

(** What a read returns is truthy exactly for an accepted text. *)
Lemma read_token_truthy_iff (now : Z) (w : World) :
  ToBoolean (read_token now w) = true <-> accepted now w.
Proof.
  unfold read_token.
  destruct (getStoredToken_cases now w) as [Hs | Hs | Hstale | s v d Hs Hp Hn Hd Hf]; simpl.
  - split; [discriminate|]. intros (s & v & d & Hs' & _). congruence.
  - split; [discriminate|]. intros (s & v & d & Hs' & Hp & _).
    exfalso. apply (stored_not_empty w s v Hs' Hp). congruence.
  - split; [discriminate|]. intros (s & v & d & Hs' & Hp & Htrue & Hd & Hf).
    exfalso. apply (stale_not_kept now w s v d Hs' Hp); auto.
    + destruct v; simpl in *; congruence.
    + apply Date_lt_now_false, Hf.
  - split.
    + intros Htrue. exists s, v, d. repeat split; auto.
      apply Date_lt_now_false, Hf.
    + intros (s' & v' & d' & Hs' & Hp' & Htrue & _).
      assert (s' = s) as -> by congruence. congruence.
Qed.

Lemma valid_token_accepted (now : Z) (w : World) :
  valid_token_stored now w -> accepted now w.
Proof.
  intros (s & v & Hs & Hp & tok & t & Htok & Ht & Hle).
  exists s, v, (Some t). repeat split; auto.
  - destruct v; simpl in Htok; try discriminate. reflexivity.
  - intros t' Heq. congruence.
Qed.

Lemma accepted_not_stale (now : Z) (w : World) : accepted now w -> ~ stale now w.
Proof.
  intros (s & v & d & Hs & Hp & Htrue & Hd & Hf).
  apply (stale_not_kept now w s v d Hs Hp); auto.
  - destruct v; simpl in *; congruence.
  - apply Date_lt_now_false, Hf.
Qed.

(** C6 (amended): [isAuthenticated()] returns true exactly when the current
    user is non-null and the stored text is accepted at call time: it
    parses to a truthy value whose [expiresAt] is not read as an instant
    strictly before the current time.  Every currently valid token is
    accepted (so is a JSON text that is not a token and has no readable
    [expiresAt]).  The check never throws; it leaves the world as it was
    when it answers true, and otherwise either leaves it or clears the
    session. *)
Theorem isAuthenticated_true_iff (now : Z) (w : World) :
  (fst (isAuthenticated now w) = Normal true
   <-> current_user w <> None /\ accepted now w)
  /\ (valid_token_stored now w -> accepted now w)
  /\ (fst (isAuthenticated now w) = Normal true -> snd (isAuthenticated now w) = w)
  /\ (snd (isAuthenticated now w) = w \/ snd (isAuthenticated now w) = cleared w)
  /\ completes (isAuthenticated now w).
Proof.
  rewrite isAuthenticated_unfold.
  pose proof (read_token_truthy_iff now w) as Htruthy.
  destruct (current_user w) as [u|] eqn:Hu; simpl.
  - split; [|split; [apply valid_token_accepted | split; [|split]]].
    + split.
      * intros Heq. injection Heq as Heq. split; [congruence | tauto].
      * intros [_ Hacc]. f_equal. tauto.
    + intros Heq. injection Heq as Heq.
      apply getStoredToken_frame, accepted_not_stale. tauto.
    + destruct (getStoredToken_cases now w); auto.
    + eexists. reflexivity.
  - split; [|split; [apply valid_token_accepted | split; [|split]]]; auto.
    + split; [discriminate | tauto].
    + eexists. reflexivity.
Qed.

(** *** getHeaders and the requests *)

Lemma accepted_read (now : Z) (w : World) :
  accepted now w ->
  exists s v, stored_text w = Some s /\ JSON_parse s = Some v
              /\ ToBoolean v = true /\ getStoredToken now w = (Normal v, w).
Proof.
  intros Hacc. pose proof (accepted_not_stale now w Hacc) as Hfresh.
  destruct Hacc as (s & v & d & Hs & Hp & Htrue & Hd & Hf).
  exists s, v. repeat split; auto.
  destruct (getStoredToken_cases now w) as [Hs' | Hs' | Hstale | s' v' d' Hs' Hp' _ _ _].
  - congruence.
  - exfalso. apply (stored_not_empty w s v Hs Hp). congruence.
  - contradiction.
  - assert (s' = s) as -> by congruence. congruence.
Qed.

Lemma getStoredToken_valid (now : Z) (w : World) (s : string) (v : JSValue) :
  stored_text w = Some s -> JSON_parse s = Some v -> valid_token now v ->
  getStoredToken now w = (Normal v, w).
Proof.
  intros Hs Hp Hvalid.
  assert (accepted now w) as Hacc.
  { apply valid_token_accepted. exists s, v. auto. }
  destruct (accepted_read now w Hacc) as (s' & v' & Hs' & Hp' & _ & Hread).
  assert (s' = s) as -> by congruence. congruence.
Qed.

Lemma getStoredToken_network (now : Z) (w : World) :
  network (snd (getStoredToken now w)) = network w.
Proof. destruct (getStoredToken_cases now w); reflexivity. Qed.

Lemma getStoredToken_config (now : Z) (w : World) :
  config (snd (getStoredToken now w)) = config w.
Proof. destruct (getStoredToken_cases now w); reflexivity. Qed.

(** The building of the headers ends in one of the three ways. *)
Lemma getHeaders_cases (now : Z) (w : World) :
  headers_result now w (getHeaders now w).
Proof.
  unfold getHeaders. unfold_eff. simpl.
  rewrite getStoredToken_eq.
  destruct (ToBoolean (read_token now w)) eqn:Htrue.
  - apply read_token_truthy_iff in Htrue as Hacc.
    destruct (accepted_read now w Hacc) as (s & v & Hs & Hp & Hv & Hread).
    unfold read_token. rewrite Hread. simpl.
    unfold get_property. replace (nullish v) with false
      by (destruct v; simpl in *; congruence).
    simpl. destruct (ToString (member v "token")) as [b|] eqn:Hb; simpl.
    + apply (headers_bearer now w b Hacc). exists s, v. auto.
    + apply (headers_thrown now w Hacc). exists s, v. auto.
  - apply headers_plain. rewrite <- read_token_truthy_iff. congruence.
Qed.

Lemma getHeaders_world (now : Z) (w : World) :
  snd (getHeaders now w) = snd (getStoredToken now w).
Proof.
  destruct (getHeaders_cases now w) as [Hno | b Hacc _ | Hacc _]; simpl.
  - reflexivity.
  - symmetry. apply getStoredToken_frame, accepted_not_stale, Hacc.
  - symmetry. apply getStoredToken_frame, accepted_not_stale, Hacc.
Qed.

(** The headers are built whenever the stored text is not accepted, and
    whenever it is a valid token. *)
Lemma getHeaders_completes (now : Z) (w : World) :
  ~ accepted now w \/ valid_token_stored now w -> completes (getHeaders now w).
Proof.
  intros Hok.
  destruct (getHeaders_cases now w) as [Hno | b Hacc _ | Hacc Hbad]; simpl.
  - eexists. reflexivity.
  - eexists. reflexivity.
  - exfalso. destruct Hok as [Hno | (s & v & Hs & Hp & tok & t & Htok & _)].
    + contradiction.
    + destruct Hbad as (s' & v' & Hs' & Hp' & Hnone).
      assert (s' = s) as -> by congruence.
      assert (v' = v) as -> by congruence.
      rewrite Htok in Hnone. discriminate.
Qed.

Lemma http_request_unfold (now : Z) (m : Method) (path : string) (b : option JSValue)
    (w : World) :
  http_request now m path b w
  = match fst (getHeaders now w) with
    | Normal h =>
        (Normal tt,
         http_send {| method := m;
                      url := template (ReownConfig.baseUrl (config w)) +:+ path;
                      body := b;
                      headers := h |}
           (snd (getStoredToken now w)))
    | Thrown e => (Thrown e, snd (getStoredToken now w))
    end.
Proof.
  unfold http_request. unfold_eff.
  pose proof (getHeaders_world now w) as Hworld.
  destruct (getHeaders now w) as [[h | e] w1]; simpl in *; subst w1.
  - rewrite getStoredToken_config. reflexivity.
  - reflexivity.
Qed.

Ltac unfold_operation :=
  unfold signUp, signIn, signOut, getUser, updateUser, requestPasswordReset,
    resetPassword, signUp_post, signIn_post, signOut_delete, getUser_get,
    updateUser_patch, requestPasswordReset_post, resetPassword_post, signUp_pipe,
    signIn_pipe, signOut_pipe, getUser_pipe, updateUser_pipe,
    requestPasswordReset_pipe, resetPassword_pipe, rethrow, setToken, clearSession;
  unfold_eff; repeat rewrite http_request_unfold; simpl.

(** An operation that builds a request hands one to [HttpClient], with the
    headers [getHeaders()] returned. *)
Lemma request_headers (now : Z) (op : Operation) (w : World) (h : gmap string string) :
  fst (getHeaders now w) = Normal h ->
  sends op w = true ->
  exists r, network (run now op w) = r :: network w /\ headers r = h.
Proof.
  intros Hh.
  destruct op as [e p u [r|err] | e p [r|err] | reply | [r|err] | u [r|err]
                 | e [r|err] | t p [r|err] | | ];
    simpl; try discriminate; intros Hsends; unfold_operation; try rewrite Hh; simpl;
    try (eexists; split; [rewrite <- (getStoredToken_network now w); reflexivity
                         | reflexivity]).
  unfold current_session in Hsends. rewrite Hsends. simpl.
  rewrite http_request_unfold, Hh.
  destruct reply; simpl;
    (eexists; split; [rewrite <- (getStoredToken_network now w); reflexivity
                     | reflexivity]).
Qed.

Lemma static_headers_lookup (cfg : ReownConfig.t) :
  static_headers cfg !! "Content-Type" = Some "application/json"
  /\ static_headers cfg !! "X-API-Key" = Some (ReownConfig.apiKey cfg)
  /\ static_headers cfg !! "Authorization" = None
  /\ (forall o, static_headers cfg !! "X-Organization-ID" = Some o
                <-> ReownConfig.organizationId cfg = Some o /\ o <> "").
Proof.
  unfold static_headers.
  destruct (ReownConfig.organizationId cfg) as [org|]; simpl.
  - destruct (String.eqb_spec org "") as [-> | Hne]; simpl;
      (split; [by simplify_map_eq | split; [by simplify_map_eq
                                            | split; [by simplify_map_eq |]]]);
      intros o; simplify_map_eq.
    + split; [discriminate|]. intros [Heq Hne]. congruence.
    + split; [intros Heq; split; congruence|]. intros [Heq _]. congruence.
  - split; [by simplify_map_eq | split; [by simplify_map_eq
                                         | split; [by simplify_map_eq |]]].
    intros o. simplify_map_eq. split; [discriminate|]. intros [Heq _]. discriminate.
Qed.

(** C8 (amended): [getHeaders()] returns unless the stored text is
    accepted with a [token] that cannot be converted to a string; then it
    throws a TypeError and changes nothing.  Whenever it returns, the
    headers hold [Content-Type] and [X-API-Key] with the configured key;
    [X-Organization-ID] exactly when a non-empty organization id is
    configured; and [Authorization] exactly when the stored text is
    accepted at the time the headers are built (with [Bearer <token>] for
    a currently valid token; a JSON text that is not a token is accepted
    too, see [accepted]).  Every operation that builds a request sends
    these headers. *)
Theorem getHeaders_contents (now : Z) (w : World) :
  (completes (getHeaders now w) <-> ~ (accepted now w /\ unprintable_token w))
  /\ (accepted now w /\ unprintable_token w ->
      getHeaders now w = (Thrown TypeError, w))
  /\ (forall h, fst (getHeaders now w) = Normal h ->
      h !! "Content-Type" = Some "application/json"
      /\ h !! "X-API-Key" = Some (ReownConfig.apiKey (config w))
      /\ (forall o, h !! "X-Organization-ID" = Some o
                    <-> ReownConfig.organizationId (config w) = Some o /\ o <> "")
      /\ (is_Some (h !! "Authorization") <-> accepted now w)
      /\ (forall s v tok,
            stored_text w = Some s -> JSON_parse s = Some v -> valid_token now v ->
            member v "token" = JString tok ->
            h !! "Authorization" = Some ("Bearer " +:+ tok))
      /\ (forall op, sends op w = true ->
            exists r, network (run now op w) = r :: network w /\ headers r = h)).
Proof.
  assert (forall b, bearer w b -> unprintable_token w -> False) as Hprintable.
  { intros b (s & v & Hs & Hp & Hb) (s' & v' & Hs' & Hp' & Hnone).
    assert (s' = s) as -> by congruence.
    assert (v' = v) as -> by congruence.
    congruence. }
  split; [|split].
  - destruct (getHeaders_cases now w) as [Hno | b Hacc Hb | Hacc Hodd]; split.
    + intros _ [Hacc _]. contradiction.
    + intros _. eexists. reflexivity.
    + intros _ [_ Hodd]. exact (Hprintable b Hb Hodd).
    + intros _. eexists. reflexivity.
    + intros [h Hh]. discriminate Hh.
    + intros Hnot. exfalso. apply Hnot. split; assumption.
  - intros [Hacc Hodd].
    destruct (getHeaders_cases now w) as [Hno | b _ Hb | _ _].
    + contradiction.
    + exfalso. exact (Hprintable b Hb Hodd).
    + reflexivity.
  - intros h Hh.
    destruct (static_headers_lookup (config w)) as (Htype & Hkey & Hauth & Horg).
    split; [|split; [|split; [|split; [|split]]]];
      [| | | | | intros op; apply request_headers, Hh].
    all: destruct (getHeaders_cases now w) as [Hno | b Hacc Hb | Hacc _];
      simpl in Hh; try discriminate; injection Hh as <-.
    + exact Htype.
    + by simplify_map_eq.
    + exact Hkey.
    + by simplify_map_eq.
    + exact Horg.
    + intros o. rewrite lookup_insert_ne by discriminate. apply Horg.
    + rewrite Hauth. split; [intros [x Hx]; discriminate | contradiction].
    + rewrite lookup_insert_eq. split; [auto | eauto].
    + intros s v tok Hs Hp Hvalid _. exfalso. apply Hno, valid_token_accepted.
      exists s, v. auto.
    + intros s v tok Hs Hp Hvalid Htok.
      destruct Hb as (s' & v' & Hs' & Hp' & Hstring).
      assert (s' = s) as -> by congruence.
      assert (v' = v) as -> by congruence.
      rewrite Htok in Hstring. simpl in Hstring. injection Hstring as <-.
      apply lookup_insert_eq.
Qed.

(** *** signUp and signIn *)

Lemma or_else_present (m fallback : string) : m <> "" -> or_else (Some m) fallback = m.
Proof.
  intros Hne. unfold or_else. simpl.
  destruct (String.eqb_spec m ""); [contradiction | reflexivity].
Qed.

Lemma or_else_missing (o : option string) (fallback : string) :
  o = None \/ o = Some "" -> or_else o fallback = fallback.
Proof. intros [-> | ->]; reflexivity. Qed.

(** C5 (amended): a signUp or signIn whose request is built and fails at
    the HTTP layer delivers an error whose message is the server's when it
    is present (not undefined, not empty) and the fallback of the
    operation otherwise.  The current user, the current session and the
    stored text are afterwards what the token read made of them while the
    headers were built: the same as before unless the stored text was
    stale, and all null when it was. *)
Theorem failed_signUp_signIn (now : Z) (w : World) (email password : string)
    (userData : option PartialUser.t) (error : HttpErrorResponse) :
  completes (getHeaders now w) ->
  (forall m, message error = Some m -> m <> "" ->
     fst (signUp email password userData now (HttpFailure error) w) = Normal (Errors m)
     /\ fst (signIn email password now (HttpFailure error) w) = Normal (Errors m))
  /\ (message error = None \/ message error = Some "" ->
     fst (signUp email password userData now (HttpFailure error) w)
       = Normal (Errors "Sign up failed")
     /\ fst (signIn email password now (HttpFailure error) w)
        = Normal (Errors "Sign in failed"))
  /\ session_state (snd (signUp email password userData now (HttpFailure error) w))
     = session_state (snd (getStoredToken now w))
  /\ session_state (snd (signIn email password now (HttpFailure error) w))
     = session_state (snd (getStoredToken now w))
  /\ (~ stale now w -> session_state (snd (getStoredToken now w)) = session_state w)
  /\ (stale now w -> session_state (snd (getStoredToken now w)) = (None, None, None)).
Proof.
  intros [h Hh].
  split; [|split; [|split; [|split; [|split]]]].
  - intros m Hm Hne. unfold_operation. rewrite Hh, Hm. simpl.
    rewrite !or_else_present by exact Hne. auto.
  - intros Hmissing. unfold_operation. rewrite Hh. simpl.
    rewrite !or_else_missing by exact Hmissing. auto.
  - unfold_operation. rewrite Hh. reflexivity.
  - unfold_operation. rewrite Hh. reflexivity.
  - intros Hfresh. rewrite getStoredToken_frame by exact Hfresh. reflexivity.
  - intros Hstale. rewrite getStoredToken_stale by exact Hstale. simpl.
    unfold session_state. rewrite cleared_stored_text. reflexivity.
Qed.

Lemma persists_valid (now : Z) (token : ReownToken.t) (w : World) :
  persists token -> (now <= ReownToken.expiresAt token)%Z ->
  stored_text w = Some (JSON_stringify token) ->
  valid_token_stored now w.
Proof.
  intros (v & Hp & Htok & Hexp) Hle Hs.
  exists (JSON_stringify token), v. repeat split; auto.
  exists (ReownToken.token token), (ReownToken.expiresAt token). auto.
Qed.

Lemma isAuthenticated_valid (now : Z) (w : World) :
  current_user w <> None -> valid_token_stored now w ->
  fst (isAuthenticated now w) = Normal true.
Proof.
  intros Hu Hvalid. rewrite isAuthenticated_unfold.
  destruct (current_user w); [|congruence]. simpl. f_equal.
  apply read_token_truthy_iff, valid_token_accepted, Hvalid.
Qed.

(** C3: after a successful signIn (the call returns, and the response
    carries a user, a session and a token that has not expired and that
    [JSON.parse] reads back as [JSON.stringify] wrote it), the current user
    and the current session are those of the response, the token of the
    response is stored, and [isAuthenticated()] returns true. *)
Theorem signIn_success (now now' : Z) (w : World) (email password : string)
    (response : SignInResponse) :
  completes (signIn email password now (HttpSuccess response) w) ->
  persists (signIn_token response) ->
  (now' < ReownToken.expiresAt (signIn_token response))%Z ->
  fst (signIn email password now (HttpSuccess response) w)
    = Normal (Emits (signIn_session response))
  /\ current_user (snd (signIn email password now (HttpSuccess response) w))
     = Some (signIn_user response)
  /\ current_session (snd (signIn email password now (HttpSuccess response) w))
     = Some (signIn_session response)
  /\ stored_text (snd (signIn email password now (HttpSuccess response) w))
     = Some (JSON_stringify (signIn_token response))
  /\ valid_token_stored now' (snd (signIn email password now (HttpSuccess response) w))
  /\ fst (isAuthenticated now' (snd (signIn email password now (HttpSuccess response) w)))
     = Normal true.
Proof.
  intros [outcome Hreturns] Hpersists Hfresh.
  assert (exists w1,
            signIn email password now (HttpSuccess response) w
            = (Normal (Emits (signIn_session response)),
               next_currentSession (Some (signIn_session response))
                 (next_currentUser (Some (signIn_user response))
                    (setItem tokenStorageKey (JSON_stringify (signIn_token response))
                       w1)))) as [w1 Hrun].
  { revert Hreturns. unfold_operation.
    destruct (fst (getHeaders now w)); simpl; [|discriminate].
    intros _. eexists. reflexivity. }
  rewrite Hrun. cbn [fst snd].
  assert (stored_text
            (next_currentSession (Some (signIn_session response))
               (next_currentUser (Some (signIn_user response))
                  (setItem tokenStorageKey (JSON_stringify (signIn_token response)) w1)))
          = Some (JSON_stringify (signIn_token response))) as Hstored.
  { apply lookup_insert_eq. }
  pose proof (persists_valid now' (signIn_token response) _ Hpersists
                ltac:(lia) Hstored) as Hvalid.
  split; [reflexivity|].
  split; [reflexivity|].
  split; [reflexivity|].
  split; [exact Hstored|].
  split; [exact Hvalid|].
  apply isAuthenticated_valid; [discriminate | exact Hvalid].
Qed.

(** *** signOut *)

(** signOut returns with the session cleared, or throws what
    [getHeaders()] throws and leaves the world as it was. *)
Lemma signOut_cases (now : Z) (reply : HttpReply unit) (w : World) :
  (exists w0, signOut now reply w = (Normal (Emits tt), cleared w0)
              /\ (truthy (option_map ReownSession.id (current_session w)) = false
                  -> w0 = w))
  \/ (signOut now reply w = (Thrown TypeError, w)
      /\ truthy (option_map ReownSession.id (current_session w)) = true
      /\ ~ completes (getHeaders now w)).
Proof.
  unfold signOut, signOut_delete, signOut_pipe, current_session. unfold_eff. simpl.
  destruct (truthy (option_map ReownSession.id (value (currentSessionSubject w))));
    simpl.
  - rewrite http_request_unfold.
    destruct (getHeaders_cases now w) as [Hno | b Hacc _ | Hacc _]; simpl.
    + left. destruct reply; eexists; (split; [reflexivity | discriminate]).
    + left. destruct reply; eexists; (split; [reflexivity | discriminate]).
    + right. rewrite getStoredToken_frame by (apply accepted_not_stale, Hacc).
      split; [reflexivity | split; [reflexivity|]].
      intros [h Hh]. discriminate Hh.
  - left. exists w. split; reflexivity.
Qed.

(** Whenever signOut returns, whether the HTTP call succeeded or failed,
    it delivers its value and no error, and the current user, the current
    session and the stored token are null; [isAuthenticated()] is false
    afterwards.  It returns in every state with no session, and in every
    state whose stored text is not accepted or is a valid token. *)
Lemma signOut_clears_when_it_returns (now now' : Z) (reply : HttpReply unit)
    (w : World) :
  (completes (signOut now reply w) ->
   fst (signOut now reply w) = Normal (Emits tt)
   /\ current_user (snd (signOut now reply w)) = None
   /\ current_session (snd (signOut now reply w)) = None
   /\ stored_text (snd (signOut now reply w)) = None
   /\ isAuthenticated now' (snd (signOut now reply w))
      = (Normal false, snd (signOut now reply w)))
  /\ (current_session w = None \/ ~ accepted now w \/ valid_token_stored now w ->
      completes (signOut now reply w)).
Proof.
  destruct (signOut_cases now reply w) as [(w0 & -> & _) | (-> & Hid & Hthrows)];
    cbn [fst snd].
  - split.
    + intros _.
      split; [reflexivity|].
      split; [apply cleared_current_user|].
      split; [apply cleared_current_session|].
      split; [apply cleared_stored_text|].
      rewrite isAuthenticated_unfold. rewrite cleared_current_user. reflexivity.
    + intros _. eexists. reflexivity.
  - split.
    + intros [a Ha]. discriminate Ha.
    + intros [Hnone | Hok].
      * rewrite Hnone in Hid. discriminate Hid.
      * exfalso. apply Hthrows, getHeaders_completes, Hok.
Qed.

(** C9: with no current session, signOut delivers its value whatever the
    reply would be, hands no request to [HttpClient], and leaves the
    current user, the current session and the stored token null. *)
Theorem signOut_without_session (now : Z) (reply : HttpReply unit) (w : World) :
  current_session w = None ->
  signOut now reply w = (Normal (Emits tt), cleared w)
  /\ network (snd (signOut now reply w)) = network w
  /\ current_user (snd (signOut now reply w)) = None
  /\ current_session (snd (signOut now reply w)) = None
  /\ stored_text (snd (signOut now reply w)) = None.
Proof.
  intros Hnone.
  assert (signOut now reply w = (Normal (Emits tt), cleared w)) as ->.
  { unfold signOut, signOut_delete, signOut_pipe. unfold current_session in Hnone. unfold_eff. simpl.
    rewrite Hnone. reflexivity. }
  cbn [fst snd].
  split; [reflexivity|].
  split; [apply cleared_network|].
  split; [apply cleared_current_user|].
  split; [apply cleared_current_session | apply cleared_stored_text].
Qed.

(** *** The session invariant *)

Lemma session_invariant_no_user (now : Z) (w : World) :
  current_user w = None -> session_invariant now w.
Proof. intros Hu Hsome. contradiction. Qed.

(** A token that was valid is, later, still valid or seen as expired. *)
Lemma valid_token_later (t1 t2 : Z) (w : World) :
  valid_token_stored t1 w -> valid_token_stored t2 w \/ stale t2 w.
Proof.
  intros (s & v & Hs & Hp & tok & t & Htok & Ht & Hle).
  destruct (Z.le_gt_cases t2 t) as [Hfresh | Hexpired].
  - left. exists s, v. repeat split; auto. exists tok, t. auto.
  - right. exists s. split; [exact Hs | split; [exact (stored_not_empty w s v Hs Hp)|]].
    right. right. right. exists v, t. auto.
Qed.

(** A read re-establishes the invariant at its own instant. *)
Lemma getStoredToken_invariant (t1 t2 : Z) (w : World) :
  session_invariant t1 w -> session_invariant t2 (snd (getStoredToken t2 w)).
Proof.
  intros Hinv.
  destruct (current_user w) as [u|] eqn:Hu.
  - destruct (valid_token_later t1 t2 w) as [Hvalid | Hstale].
    + apply Hinv. congruence.
    + rewrite getStoredToken_frame
        by (apply accepted_not_stale, valid_token_accepted, Hvalid).
      intros _. exact Hvalid.
    + rewrite (getStoredToken_stale t2 w Hstale).
      apply session_invariant_no_user, cleared_current_user.
  - destruct (getStoredToken_cases t2 w); simpl;
      apply session_invariant_no_user; auto using cleared_current_user.
Qed.

Lemma isAuthenticated_invariant (t1 t2 : Z) (w : World) :
  session_invariant t1 w -> session_invariant t2 (snd (isAuthenticated t2 w)).
Proof.
  intros Hinv. rewrite isAuthenticated_unfold.
  destruct (current_user w) eqn:Hu; simpl.
  - apply (getStoredToken_invariant t1), Hinv.
  - apply session_invariant_no_user, Hu.
Qed.

Lemma http_request_invariant (t1 now : Z) (m : Method) (path : string)
    (b : option JSValue) (w : World) :
  session_invariant t1 w -> session_invariant now (snd (http_request now m path b w)).
Proof.
  intros Hinv. pose proof (getStoredToken_invariant t1 now w Hinv) as Hread.
  rewrite http_request_unfold. destruct (fst (getHeaders now w)); exact Hread.
Qed.

(** A request built while a valid token is stored leaves it stored. *)
Lemma http_request_valid (now : Z) (m : Method) (path : string) (b : option JSValue)
    (w : World) :
  valid_token_stored now w -> valid_token_stored now (snd (http_request now m path b w)).
Proof.
  intros Hvalid. rewrite http_request_unfold.
  rewrite (getStoredToken_frame now w)
    by (apply accepted_not_stale, valid_token_accepted, Hvalid).
  destruct (fst (getHeaders now w)); exact Hvalid.
Qed.

(** A call leaves nothing in flight, or the request of its operation. *)
Lemma call_in_flight (now : Z) (op : Operation) (w : World) (flying : list Operation) :
  fst (call now op w) = Normal flying -> flying = [] \/ flying = [op].
Proof.
  destruct op; simpl; unfold_eff;
    repeat match goal with
           | |- context [match ?c with (_, _) => _ end] => destruct c as [[?|?] ?]
           | |- context [if ?b then _ else _] => destruct b
           end; simpl; intros [= <-]; auto.
Qed.

(** A call re-establishes the invariant at the instant it is made, however
    long after the invariant last held. *)
Lemma call_invariant (t1 now : Z) (op : Operation) (w : World) :
  session_invariant t1 w -> session_invariant now (snd (call now op w)).
Proof.
  intros Hinv.
  assert (forall m path b (flying : list Operation),
            session_invariant now
              (snd ((let* _ := http_request now m path b in ret flying) w))) as Hrequest.
  { intros m path b flying.
    pose proof (http_request_invariant t1 now m path b w Hinv) as Hsent.
    unfold_eff. destruct (http_request now m path b w) as [[[]|e] w']; exact Hsent. }
  destruct op; simpl; try apply Hrequest.
  - unfold_eff. simpl.
    destruct (truthy (option_map ReownSession.id (value (currentSessionSubject w))));
      simpl; [apply Hrequest|].
    apply session_invariant_no_user. reflexivity.
  - pose proof (isAuthenticated_invariant t1 now w Hinv) as Hcheck.
    unfold_eff. destruct (isAuthenticated now w) as [[b|e] w']; exact Hcheck.
  - pose proof (getStoredToken_invariant t1 now w Hinv) as Hread.
    unfold_eff. destruct (getStoredToken now w) as [[v|e] w']; exact Hread.
Qed.

(** The reply that was plausible when the call was made is plausible for
    the service the call leaves. *)
Lemma call_plausible (now : Z) (op : Operation) (w : World) :
  plausible now op w -> plausible now op (snd (call now op w)).
Proof.
  assert (forall m path b (flying : list Operation),
            valid_token_stored now w ->
            valid_token_stored now
              (snd ((let* _ := http_request now m path b in ret flying) w))) as Hrequest.
  { intros m path b flying Hvalid.
    pose proof (http_request_valid now m path b w Hvalid) as Hsent.
    unfold_eff. destruct (http_request now m path b w) as [[[]|e] w']; exact Hsent. }
  destruct op as [e p u [r|err] | e p [r|err] | reply | [r|err] | u [r|err]
                 | e [r|err] | t p [r|err] | | ]; simpl; auto;
    intros Hvalid; apply Hrequest, Hvalid.
Qed.

(** The arrival of a plausible reply keeps the invariant. *)
Lemma arrive_invariant (now : Z) (op : Operation) (w : World) :
  session_invariant now w -> plausible now op w ->
  session_invariant now (snd (arrive op w)).
Proof.
  intros Hinv Hplausible.
  destruct op as [e p u [r|err] | e p [r|err] | [[]|err] | [r|err] | u [r|err]
                 | e [r|err] | t p [r|err] | | ]; simpl in *;
    try exact Hinv;
    try (apply session_invariant_no_user; reflexivity);
    try (intros _; exact Hplausible).
  - destruct Hplausible as [Hp Hle]. intros _.
    apply (persists_valid now (signUp_token r)); auto. apply lookup_insert_eq.
  - destruct Hplausible as [Hp Hle]. intros _.
    apply (persists_valid now (signIn_token r)); auto. apply lookup_insert_eq.
Qed.

(** The call of an operation followed at once by the arrival of its reply
    is the operation as [run] has it. *)
Lemma step_awaited (now : Z) (op : Operation) (w : World) :
  step (Arrives 0) (step (Calls now op) {| world := w; in_flight := [] |})
  = {| world := run now op w; in_flight := [] |}.
Proof.
  destruct op as [e p u reply | e p reply | reply | reply | u reply
                 | e reply | t p reply | | ]; simpl;
    unfold signUp, signIn, signOut, getUser, updateUser, requestPasswordReset,
      resetPassword; unfold_eff; simpl.
  - destruct (signUp_post e p u now w) as [[[]|err] w']; simpl; [|reflexivity].
    unfold_eff. destruct (signUp_pipe reply w') as [[o|err] w'']; reflexivity.
  - destruct (signIn_post e p now w) as [[[]|err] w']; simpl; [|reflexivity].
    unfold_eff. destruct (signIn_pipe reply w') as [[o|err] w'']; reflexivity.
  - destruct (truthy (option_map ReownSession.id (value (currentSessionSubject w))));
      simpl; [|reflexivity].
    destruct (signOut_delete _ now w) as [[[]|err] w']; simpl; [|reflexivity].
    unfold_eff. destruct (signOut_pipe reply w') as [[o|err] w'']; reflexivity.
  - destruct (getUser_get now w) as [[[]|err] w']; simpl; [|reflexivity].
    unfold_eff. destruct (getUser_pipe reply w') as [[o|err] w'']; reflexivity.
  - destruct (updateUser_patch u now w) as [[[]|err] w']; simpl; [|reflexivity].
    unfold_eff. destruct (updateUser_pipe reply w') as [[o|err] w'']; reflexivity.
  - destruct (requestPasswordReset_post e now w) as [[[]|err] w']; simpl; [|reflexivity].
    unfold_eff. destruct (requestPasswordReset_pipe reply w') as [[o|err] w'']; reflexivity.
  - destruct (resetPassword_post t p now w) as [[[]|err] w']; simpl; [|reflexivity].
    unfold_eff. destruct (resetPassword_pipe reply w') as [[o|err] w'']; reflexivity.
  - destruct (isAuthenticated now w) as [[b|err] w']; reflexivity.
  - destruct (getStoredToken now w) as [[v|err] w']; reflexivity.
Qed.

(** One event of an awaited run. *)
Lemma step_invariant (t0 : Z) (e : Event) (s : Service) :
  awaited_invariant t0 s ->
  awaits [e] s -> plausible_run [e] s ->
  awaited_invariant (last_call t0 [e]) (step e s).
Proof.
  intros [Hinv Hflying] [Hawaits _] [Hplausible _].
  destruct e as [now op | n]; simpl in *.
  - pose proof (call_invariant t0 now op (world s) Hinv) as Hcall.
    pose proof (call_plausible now op (world s) Hplausible) as Hreply.
    pose proof (call_in_flight now op (world s)) as Hone.
    rewrite Hawaits.
    destruct (call now op (world s)) as [[flying|err] w']; simpl in *.
    + split; [exact Hcall|].
      destruct (Hone flying eq_refl) as [-> | ->]; [left; reflexivity | right; eauto].
    + split; [exact Hcall | left; reflexivity].
  - destruct Hflying as [Hnone | (op & Hop & Hreply)].
    + rewrite Hnone. simpl. split; [exact Hinv | left; exact Hnone].
    + rewrite Hop. destruct n as [|n]; simpl.
      * split; [apply arrive_invariant; assumption | left; reflexivity].
      * split; [exact Hinv | right; eauto].
Qed.

Lemma steps_invariant (t0 : Z) (events : list Event) (s : Service) :
  awaited_invariant t0 s ->
  awaits events s -> plausible_run events s ->
  awaited_invariant (last_call t0 events) (steps events s).
Proof.
  revert t0 s. induction events as [|e rest IH]; intros t0 s Hinv Hawaits Hplausible.
  - exact Hinv.
  - destruct Hawaits as [He Hrest], Hplausible as [Hp Hprest].
    change (steps (e :: rest) s) with (steps rest (step e s)).
    replace (last_call t0 (e :: rest)) with (last_call (last_call t0 [e]) rest)
      by (destruct e; reflexivity).
    apply IH; [|exact Hrest | exact Hprest].
    apply step_invariant; simpl; auto.
Qed.

Lemma restoreSession_unfold (now now' : Z) (reply : HttpReply UserResponse) (w : World) :
  restoreSession now now' reply w
  = if ToBoolean (read_token now w)
    then call now' (GetUser reply) (snd (getStoredToken now w))
    else (Normal [], snd (getStoredToken now w)).
Proof.
  pose proof (getStoredToken_eq now w) as Heq.
  unfold restoreSession. unfold_eff.
  destruct (getStoredToken now w) as [r w'] eqn:Hrun.
  injection Heq as ->. cbn [snd].
  destruct (ToBoolean (read_token now w)); reflexivity.
Qed.

(** The service as the constructor leaves it. *)
Lemma constructor_invariant (now now' : Z) (injected : option ReownConfig.t)
    (storage : gmap string string) (reply : HttpReply UserResponse) (s : Service) :
  constructor injected storage now now' reply = Some s ->
  plausible now' (GetUser reply) (initial_world injected storage) ->
  awaited_invariant now' s.
Proof.
  unfold constructor. rewrite restoreSession_unfold.
  intros Hnew Hplausible.
  assert (session_invariant now (initial_world injected storage)) as Hinit.
  { apply session_invariant_no_user. reflexivity. }
  destruct (ToBoolean (read_token now (initial_world injected storage))) eqn:Htoken.
  - apply read_token_truthy_iff in Htoken.
    rewrite (getStoredToken_frame now _ (accepted_not_stale now _ Htoken)) in Hnew.
    pose proof (call_invariant now now' (GetUser reply) _ Hinit) as Hcall.
    pose proof (call_plausible now' (GetUser reply) _ Hplausible) as Hreply.
    pose proof (call_in_flight now' (GetUser reply) (initial_world injected storage))
      as Hone.
    destruct (call now' (GetUser reply) (initial_world injected storage))
      as [[flying|err] w']; [|discriminate].
    injection Hnew as <-. split; [exact Hcall|]. simpl in *.
    destruct (Hone flying eq_refl) as [-> | ->]; [left; reflexivity | right; eauto].
  - injection Hnew as <-. split; [|left; reflexivity].
    apply session_invariant_no_user. simpl.
    destruct (getStoredToken_cases now (initial_world injected storage)); simpl;
      auto using cleared_current_user.
Qed.

(** C2 (amended): in every state reached from the constructor by calls of
    the operations of the service and arrivals of their replies, where the
    application awaits every reply (it makes a call only when no request
    is in flight, the restore of the constructor included) and every call
    is answered plausibly, the current user is non-null only if a token
    is stored that is valid at the time of the last call.  Plausible:
    every token a successful signUp or signIn brings persists and has not
    expired when the call is made, and a successful getUser or updateUser
    (the restore of the constructor included) answers a request made with
    a valid token stored.  Nothing is claimed of the time after the last
    call, of other replies, nor of calls made while a reply is awaited. *)
Theorem session_invariant_of_plausible_runs (t0 t0' : Z)
    (injected : option ReownConfig.t) (storage : gmap string string)
    (reply : HttpReply UserResponse) (events : list Event) (s : Service) :
  constructor injected storage t0 t0' reply = Some s ->
  plausible t0' (GetUser reply) (initial_world injected storage) ->
  awaits events s ->
  plausible_run events s ->
  session_invariant (last_call t0' events) (world (steps events s)).
Proof.
  intros Hnew Hrestore Hawaits Hplausible.
  apply (steps_invariant t0' events s); [|exact Hawaits | exact Hplausible].
  apply (constructor_invariant t0 t0' injected storage reply s Hnew Hrestore).
Qed.

(** ** The rest of the service *)

(** *** signUp *)

(** X1: a signUp that returns and succeeds delivers the user of the
    response, makes it the current user and stores the token of the
    response; it brings no session: the current session is what the token
    read left (none, when there was none).  With a token that persists and
    has not expired, [isAuthenticated()] is then true. *)
Theorem signUp_success (now now' : Z) (w : World) (email password : string)
    (userData : option PartialUser.t) (response : SignUpResponse) :
  completes (signUp email password userData now (HttpSuccess response) w) ->
  fst (signUp email password userData now (HttpSuccess response) w)
    = Normal (Emits (signUp_user response))
  /\ current_user (snd (signUp email password userData now (HttpSuccess response) w))
     = Some (signUp_user response)
  /\ current_session (snd (signUp email password userData now (HttpSuccess response) w))
     = current_session (snd (getStoredToken now w))
  /\ (current_session w = None ->
      current_session (snd (signUp email password userData now (HttpSuccess response) w))
      = None)
  /\ stored_text (snd (signUp email password userData now (HttpSuccess response) w))
     = Some (JSON_stringify (signUp_token response))
  /\ (persists (signUp_token response) ->
      (now' <= ReownToken.expiresAt (signUp_token response))%Z ->
      fst (isAuthenticated now'
             (snd (signUp email password userData now (HttpSuccess response) w)))
      = Normal true).
Proof.
  intros [outcome Hreturns].
  assert (signUp email password userData now (HttpSuccess response) w
          = (Normal (Emits (signUp_user response)),
             next_currentUser (Some (signUp_user response))
               (setItem tokenStorageKey (JSON_stringify (signUp_token response))
                  (http_send
                     {| method := POST;
                        url := template (ReownConfig.baseUrl (config w)) +:+ "/users";
                        body :=
                          Some (JObject
                                  (spread [("email", JString email);
                                           ("password", JString password)]
                                     (default [] userData)));
                        headers := match fst (getHeaders now w) with
                                   | Normal h => h
                                   | Thrown _ => ∅
                                   end |}
                     (snd (getStoredToken now w)))))) as Hrun.
  { revert Hreturns. unfold_operation.
    destruct (fst (getHeaders now w)); simpl; [|discriminate]. reflexivity. }
  rewrite Hrun. cbn [fst snd].
  split; [reflexivity|].
  split; [reflexivity|].
  split; [reflexivity|].
  split.
  { intros Hnone.
    assert (current_session (snd (getStoredToken now w)) = None) as Hread
      by (destruct (getStoredToken_cases now w); simpl; auto).
    exact Hread. }
  split; [apply lookup_insert_eq|].
  intros Hpersists Hfresh.
  apply isAuthenticated_valid; [discriminate|].
  apply (persists_valid now' (signUp_token response)); auto.
  apply lookup_insert_eq.
Qed.

(** *** getUser and updateUser *)

(** X2: a getUser or an updateUser whose request is built and succeeds
    delivers the user of the response and makes it the current user,
    whatever the update asked for; the current session and the stored
    text stay what the token read left. *)
Theorem getUser_updateUser_success (now : Z) (w : World) (userData : PartialUser.t)
    (response : UserResponse) :
  completes (getHeaders now w) ->
  fst (getUser now (HttpSuccess response) w) = Normal (Emits (response_user response))
  /\ fst (updateUser userData now (HttpSuccess response) w)
     = Normal (Emits (response_user response))
  /\ session_state (snd (getUser now (HttpSuccess response) w))
     = (Some (response_user response),
        current_session (snd (getStoredToken now w)),
        stored_text (snd (getStoredToken now w)))
  /\ session_state (snd (updateUser userData now (HttpSuccess response) w))
     = (Some (response_user response),
        current_session (snd (getStoredToken now w)),
        stored_text (snd (getStoredToken now w))).
Proof.
  intros [h Hh].
  split; [|split; [|split]]; unfold_operation; rewrite Hh; reflexivity.
Qed.

(** X3: a getUser or an updateUser whose request is built and fails
    delivers an error with the server's message, or with its own fallback
    when there is none, and leaves the storage, both subjects and the
    configuration as the token read left them. *)
Theorem getUser_updateUser_failure (now : Z) (w : World) (userData : PartialUser.t)
    (error : HttpErrorResponse) :
  completes (getHeaders now w) ->
  (forall m, message error = Some m -> m <> "" ->
     fst (getUser now (HttpFailure error) w) = Normal (Errors m)
     /\ fst (updateUser userData now (HttpFailure error) w) = Normal (Errors m))
  /\ (message error = None \/ message error = Some "" ->
     fst (getUser now (HttpFailure error) w) = Normal (Errors "Get user failed")
     /\ fst (updateUser userData now (HttpFailure error) w)
        = Normal (Errors "Update user failed"))
  /\ service_state (snd (getUser now (HttpFailure error) w))
     = service_state (snd (getStoredToken now w))
  /\ service_state (snd (updateUser userData now (HttpFailure error) w))
     = service_state (snd (getStoredToken now w)).
Proof.
  intros [h Hh].
  split; [|split; [|split]].
  - intros m Hm Hne. unfold_operation. rewrite Hh, Hm. simpl.
    rewrite !or_else_present by exact Hne. auto.
  - intros Hmissing. unfold_operation. rewrite Hh. simpl.
    rewrite !or_else_missing by exact Hmissing. auto.
  - unfold_operation. rewrite Hh. reflexivity.
  - unfold_operation. rewrite Hh. reflexivity.
Qed.

(** *** requestPasswordReset and resetPassword *)

(** X4: the two password-reset operations, whatever the reply, leave the
    storage, both subjects and the configuration as the token read left
    them (untouched, unless the stored text was stale); on success they
    deliver the empty value, on failure the server's message or their
    fallback. *)
Theorem password_reset_keeps_state (now : Z) (w : World) (email token newPassword : string)
    (reply : HttpReply unit) :
  service_state (snd (requestPasswordReset email now reply w))
    = service_state (snd (getStoredToken now w))
  /\ service_state (snd (resetPassword token newPassword now reply w))
     = service_state (snd (getStoredToken now w))
  /\ (~ stale now w -> service_state (snd (getStoredToken now w)) = service_state w)
  /\ (completes (getHeaders now w) ->
      match reply with
      | HttpSuccess _ =>
          fst (requestPasswordReset email now reply w) = Normal (Emits tt)
          /\ fst (resetPassword token newPassword now reply w) = Normal (Emits tt)
      | HttpFailure error =>
          fst (requestPasswordReset email now reply w)
            = Normal (Errors (or_else (message error) "Request password reset failed"))
          /\ fst (resetPassword token newPassword now reply w)
             = Normal (Errors (or_else (message error) "Reset password failed"))
      end).
Proof.
  split; [|split; [|split]].
  - unfold_operation. destruct (fst (getHeaders now w)), reply; reflexivity.
  - unfold_operation. destruct (fst (getHeaders now w)), reply; reflexivity.
  - intros Hfresh. rewrite getStoredToken_frame by exact Hfresh. reflexivity.
  - intros [h Hh]. destruct reply as [[] | error]; unfold_operation; rewrite Hh;
      split; reflexivity.
Qed.

(** *** setToken and getStoredToken *)

Lemma getStoredToken_absent (now : Z) (w : World) :
  stored_text w = None -> getStoredToken now w = (Normal JNull, w).
Proof.
  intros Hs.
  destruct (getStoredToken_cases now w) as [_ | Hs' | Hstale | s v d Hs' _ _ _ _]; auto.
  - destruct Hstale as (s & Hs' & _). congruence.
  - congruence.
Qed.

(** X5: a token that is stored and read again comes back, with its string
    and its expiry and with nothing else changed, exactly as long as the
    clock has not passed its expiry (a token that expires at this very
    instant still comes back); once the clock has passed it, the read
    returns null and leaves no stored text, no user and no session. *)
Theorem setToken_getStoredToken (now : Z) (token : ReownToken.t) (w : World) :
  persists token ->
  ((now <= ReownToken.expiresAt token)%Z ->
   exists v,
     getStoredToken now (snd (setToken token w)) = (Normal v, snd (setToken token w))
     /\ member v "token" = JString (ReownToken.token token)
     /\ new_Date (member v "expiresAt") = Some (Some (ReownToken.expiresAt token)))
  /\ ((ReownToken.expiresAt token < now)%Z ->
      getStoredToken now (snd (setToken token w))
      = (Normal JNull, cleared (snd (setToken token w)))
      /\ session_state (cleared (snd (setToken token w))) = (None, None, None)).
Proof.
  intros (v & Hp & Htok & Hexp).
  assert (stored_text (snd (setToken token w)) = Some (JSON_stringify token)) as Hs.
  { unfold setToken. unfold_eff. simpl. apply lookup_insert_eq. }
  split.
  - intros Hfresh. exists v. split; [|split; assumption].
    apply (getStoredToken_valid now _ (JSON_stringify token) v Hs Hp).
    exists (ReownToken.token token), (ReownToken.expiresAt token). auto.
  - intros Hexpired. split.
    + apply getStoredToken_stale. exists (JSON_stringify token).
      split; [exact Hs | split; [exact (stored_not_empty _ _ v Hs Hp)|]].
      right. right. right. exists v, (ReownToken.expiresAt token). auto.
    + unfold session_state. rewrite cleared_stored_text. reflexivity.
Qed.

Lemma stale_later (now now' : Z) (w : World) :
  (now <= now')%Z -> stale now w -> stale now' w.
Proof.
  intros Hle (s & Hs & Hne & [H | [H | [H | (v & t & Hp & Hd & Ht)]]]);
    exists s; split; [exact Hs | split; [exact Hne | tauto]
            | exact Hs | split; [exact Hne | tauto]
            | exact Hs | split; [exact Hne | tauto]
            | exact Hs | split; [exact Hne |]].
  right. right. right. exists v, t. split; [exact Hp | split; [exact Hd | lia]].
Qed.

(** X6: an earlier read never changes what a later one gives: a token
    read, or an [isAuthenticated()], after an earlier one returns what it
    would have returned without it and leaves the same state.  Reading
    twice at one instant is reading once. *)
Theorem earlier_read_is_harmless (now now' : Z) (w : World) :
  (now <= now')%Z ->
  getStoredToken now' (snd (getStoredToken now w)) = getStoredToken now' w
  /\ isAuthenticated now' (snd (isAuthenticated now w)) = isAuthenticated now' w.
Proof.
  intros Hle.
  assert (forall w1, stored_text w1 = None -> current_user w1 = None ->
                     getStoredToken now' w1 = (Normal JNull, w1)
                     /\ isAuthenticated now' w1 = (Normal false, w1)) as Hnone.
  { intros w1 Hs Hu. split; [apply getStoredToken_absent, Hs|].
    rewrite isAuthenticated_unfold, Hu. reflexivity. }
  assert (stale now w ->
          getStoredToken now' (cleared w) = getStoredToken now' w
          /\ (current_user w <> None ->
              isAuthenticated now' (cleared w) = isAuthenticated now' w)) as Hstale.
  { intros Hs. apply (stale_later now now' w Hle) in Hs.
    destruct (Hnone (cleared w) (cleared_stored_text w) (cleared_current_user w))
      as [-> ->].
    split; [symmetry; apply getStoredToken_stale, Hs|].
    intros Hu. rewrite isAuthenticated_unfold. unfold read_token.
    rewrite (getStoredToken_stale now' w Hs).
    destruct (current_user w); [reflexivity | congruence]. }
  split.
  - destruct (getStoredToken_cases now w) as [ | | Hs | ]; cbn [snd]; auto.
    apply Hstale, Hs.
  - rewrite (isAuthenticated_unfold now w).
    destruct (current_user w) as [u|] eqn:Hu; cbn [snd]; [|reflexivity].
    destruct (getStoredToken_cases now w) as [ | | Hs | ]; cbn [snd]; auto.
    apply Hstale; [exact Hs | congruence].
Qed.

(** *** What an operation can do to the world *)

Lemma getStoredToken_console (now : Z) (w : World) :
  console (snd (getStoredToken now w)) = console w.
Proof. destruct (getStoredToken_cases now w); reflexivity. Qed.

Lemma isAuthenticated_world (now : Z) (w : World) :
  snd (isAuthenticated now w) = w
  \/ snd (isAuthenticated now w) = snd (getStoredToken now w).
Proof.
  rewrite isAuthenticated_unfold. destruct (current_user w); simpl; auto.
Qed.

Lemma run_config (now : Z) (op : Operation) (w : World) :
  config (run now op w) = config w.
Proof.
  pose proof (getStoredToken_config now w) as Hread.
  destruct op as [e p u [r|err] | e p [r|err] | reply | [r|err] | u [r|err]
                 | e [r|err] | t p [r|err] | | ]; simpl;
    try (unfold_operation; destruct (fst (getHeaders now w)); exact Hread).
  - destruct (signOut_cases now reply w) as [(w0 & Hrun & Hw0) | (-> & _)];
      [|reflexivity].
    revert Hrun Hw0. unfold signOut, signOut_delete, signOut_pipe, current_session. unfold_eff. simpl.
    destruct (truthy (option_map ReownSession.id (value (currentSessionSubject w))));
      simpl.
    + rewrite http_request_unfold.
      destruct (fst (getHeaders now w)); [|discriminate].
      destruct reply; simpl; intros _ _; exact Hread.
    + reflexivity.
  - destruct (isAuthenticated_world now w) as [-> | ->]; auto.
Qed.

Lemma run_network (now : Z) (op : Operation) (w : World) :
  (sends op w = false \/ ~ completes (getHeaders now w) ->
   network (run now op w) = network w)
  /\ (sends op w = true -> completes (getHeaders now w) ->
      exists r, network (run now op w) = r :: network w).
Proof.
  split.
  - pose proof (getStoredToken_network now w) as Hread.
    intros Hquiet.
    destruct op as [e p u [r|err] | e p [r|err] | reply | [r|err] | u [r|err]
                   | e [r|err] | t p [r|err] | | ]; simpl in *;
      try (destruct Hquiet as [Hno | Hthrows]; [discriminate|];
           unfold_operation;
           destruct (fst (getHeaders now w)) eqn:Hh;
             [exfalso; apply Hthrows; eexists; exact Hh | exact Hread]).
    + destruct (signOut_cases now reply w) as [(w0 & Hrun & Hw0) | (-> & _)];
        [|reflexivity].
      destruct Hquiet as [Hno | Hthrows].
      * rewrite Hrun, (Hw0 Hno). reflexivity.
      * revert Hrun. unfold signOut, signOut_delete, signOut_pipe, current_session. unfold_eff. simpl.
        destruct (truthy (option_map ReownSession.id (value (currentSessionSubject w))));
          simpl; [|reflexivity].
        rewrite http_request_unfold.
        destruct (fst (getHeaders now w)) eqn:Hh;
          [exfalso; apply Hthrows; eexists; exact Hh | discriminate].
    + destruct (isAuthenticated_world now w) as [-> | ->]; auto.
    + exact Hread.
  - intros Hsends [h Hh].
    destruct (request_headers now op w h Hh Hsends) as (r & Hr & _). eauto.
Qed.

(** X7: an operation hands [HttpClient] at most one request and never
    drops an earlier one: exactly one when it builds a request and the
    headers can be built, none otherwise ([isAuthenticated()], the token
    read and a signOut with no session id never build one).  No operation
    changes the configuration. *)
Theorem run_sends_at_most_one_request (now : Z) (op : Operation) (w : World) :
  (sends op w = true /\ completes (getHeaders now w) ->
   exists r, network (run now op w) = r :: network w
             /\ headers r = match fst (getHeaders now w) with
                            | Normal h => h
                            | Thrown _ => ∅
                            end)
  /\ (sends op w = false \/ ~ completes (getHeaders now w) ->
      network (run now op w) = network w)
  /\ (op = IsAuthenticated \/ op = GetStoredToken -> sends op w = false)
  /\ config (run now op w) = config w.
Proof.
  split; [|split; [|split]].
  - intros [Hsends [h Hh]]. rewrite Hh.
    apply (request_headers now op w h Hh Hsends).
  - apply run_network.
  - intros [-> | ->]; reflexivity.
  - apply run_config.
Qed.

(** *** The constructor and init *)

Lemma accepted_stored_text (now : Z) (w w' : World) :
  stored_text w' = stored_text w -> accepted now w' -> accepted now w.
Proof.
  intros Hs (s & v & d & Hs' & H). exists s, v, d. split; [congruence | exact H].
Qed.

Lemma read_keeps_or_clears (now : Z) (w : World) :
  snd (getStoredToken now w) = w \/ snd (getStoredToken now w) = cleared w.
Proof. destruct (getStoredToken_cases now w); auto. Qed.

Lemma or_else_not_empty (s : option string) (fallback : string) :
  fallback <> "" -> or_else s fallback <> "".
Proof.
  intros Hf. unfold or_else. destruct (truthy s) eqn:Ht; [|exact Hf].
  apply truthy_Some in Ht as (x & -> & Hx). exact Hx.
Qed.

(** A text accepted now was accepted before. *)
Lemma accepted_earlier (now now' : Z) (w : World) :
  (now <= now')%Z -> accepted now' w -> accepted now w.
Proof.
  intros Hle (s & v & d & Hs & Hp & Htrue & Hd & Hf).
  exists s, v, d. repeat split; auto. intros t Ht. specialize (Hf t Ht). lia.
Qed.

(** A text that is no longer accepted has expired. *)
Lemma accepted_then_stale (now now' : Z) (w : World) :
  accepted now w -> ~ accepted now' w -> stale now' w.
Proof.
  intros (s & v & d & Hs & Hp & Htrue & Hd & Hf) Hno.
  exists s. split; [exact Hs | split; [exact (stored_not_empty w s v Hs Hp)|]].
  right. right. right. exists v.
  destruct d as [t|].
  - exists t. split; [exact Hp | split; [exact Hd|]].
    destruct (Z.le_gt_cases now' t) as [Hfresh | Hexpired]; [|lia].
    exfalso. apply Hno. exists s, v, (Some t). repeat split; auto.
    intros t' [= <-]. exact Hfresh.
  - exfalso. apply Hno. exists s, v, None. repeat split; auto. discriminate.
Qed.

Lemma getHeaders_plain (now : Z) (w : World) :
  ~ accepted now w ->
  getHeaders now w = (Normal (static_headers (config w)), snd (getStoredToken now w)).
Proof.
  intros Hno. destruct (getHeaders_cases now w); [reflexivity | contradiction ..].
Qed.

(** The request of the restore. *)
Lemma call_getUser_unfold (now : Z) (reply : HttpReply UserResponse) (w : World) :
  call now (GetUser reply) w
  = match fst (getHeaders now w) with
    | Normal h =>
        (Normal [GetUser reply],
         http_send {| method := GET;
                      url := template (ReownConfig.baseUrl (config w)) +:+ "/users/me";
                      body := None; headers := h |}
           (snd (getStoredToken now w)))
    | Thrown e => (Thrown e, snd (getStoredToken now w))
    end.
Proof.
  simpl. unfold getUser_get. unfold_eff. rewrite http_request_unfold.
  destruct (fst (getHeaders now w)); reflexivity.
Qed.

(** The two ways the constructor ends when it returns: no request, or the
    request of the restore in flight. *)
Lemma constructor_cases (now now' : Z) (injected : option ReownConfig.t)
    (storage : gmap string string) (reply : HttpReply UserResponse) (s : Service) :
  constructor injected storage now now' reply = Some s ->
  (~ accepted now (initial_world injected storage)
   /\ s = {| world := snd (getStoredToken now (initial_world injected storage));
             in_flight := [] |})
  \/ (accepted now (initial_world injected storage)
      /\ exists h,
           fst (getHeaders now' (initial_world injected storage)) = Normal h
           /\ s = {| world :=
                       http_send
                         {| method := GET;
                            url := or_else (injected ≫= ReownConfig.baseUrl)
                                     DEFAULT_BASE_URL +:+ "/users/me";
                            body := None; headers := h |}
                         (snd (getStoredToken now' (initial_world injected storage)));
                     in_flight := [GetUser reply] |}).
Proof.
  unfold constructor. rewrite restoreSession_unfold.
  destruct (ToBoolean (read_token now (initial_world injected storage))) eqn:Htoken.
  - apply read_token_truthy_iff in Htoken.
    rewrite (getStoredToken_frame now _ (accepted_not_stale now _ Htoken)).
    rewrite call_getUser_unfold.
    destruct (fst (getHeaders now' (initial_world injected storage))) as [h|e] eqn:Hh;
      [|discriminate].
    intros [= <-]. right. split; [exact Htoken|]. exists h. split; [reflexivity|].
    destruct injected; reflexivity.
  - intros [= <-]. left. split; [|reflexivity].
    intros Hacc. apply read_token_truthy_iff in Hacc. congruence.
Qed.

(** X8: what the constructor restores, reading the clock at [now] for the
    token and at [now'], not earlier, for the headers of the request.
    With no stored text accepted at [now] it sends nothing and leaves
    nothing in flight.  With a text still accepted at [now'], from which
    the headers can be built, it hands over exactly one request, [GET
    <base>/users/me] with those headers, keeps the stored text, and
    returns with the reply in flight and no user set; the user is set when
    the reply arrives, if the server answers with one.  With a text
    accepted at [now] and no longer at [now'], it hands over the same
    request without [Authorization] and removes the stored text.  The
    constructor throws exactly when the text is accepted at [now] and the
    headers cannot be built at [now']. *)
Theorem constructor_restoreSession (now now' : Z) (injected : option ReownConfig.t)
    (storage : gmap string string) (reply : HttpReply UserResponse) :
  (now <= now')%Z ->
  (~ accepted now (initial_world injected storage) ->
   exists s, constructor injected storage now now' reply = Some s
     /\ in_flight s = [] /\ network (world s) = []
     /\ current_user (world s) = None /\ current_session (world s) = None
     /\ (stored_text (world s) = storage !! tokenStorageKey
         \/ stored_text (world s) = None))
  /\ (accepted now' (initial_world injected storage) ->
      forall h, fst (getHeaders now' (initial_world injected storage)) = Normal h ->
      exists s, constructor injected storage now now' reply = Some s
        /\ in_flight s = [GetUser reply]
        /\ network (world s)
           = [ {| method := GET;
                  url := or_else (injected ≫= ReownConfig.baseUrl) DEFAULT_BASE_URL
                         +:+ "/users/me";
                  body := None; headers := h |} ]
        /\ session_state (world s) = (None, None, storage !! tokenStorageKey)
        /\ in_flight (step (Arrives 0) s) = []
        /\ network (world (step (Arrives 0) s)) = network (world s)
        /\ session_state (world (step (Arrives 0) s))
           = (match reply with
              | HttpSuccess r => Some (response_user r)
              | HttpFailure _ => None
              end, None, storage !! tokenStorageKey))
  /\ (accepted now (initial_world injected storage) ->
      ~ accepted now' (initial_world injected storage) ->
      exists s, constructor injected storage now now' reply = Some s
        /\ in_flight s = [GetUser reply]
        /\ network (world s)
           = [ {| method := GET;
                  url := or_else (injected ≫= ReownConfig.baseUrl) DEFAULT_BASE_URL
                         +:+ "/users/me";
                  body := None;
                  headers := static_headers (config (initial_world injected storage)) |} ]
        /\ session_state (world s) = (None, None, None))
  /\ (constructor injected storage now now' reply = None
      <-> accepted now (initial_world injected storage)
          /\ ~ completes (getHeaders now' (initial_world injected storage))).
Proof.
  intros Hle.
  set (w0 := initial_world injected storage).
  assert (forall t, accepted t w0 -> snd (getStoredToken t w0) = w0) as Hkept.
  { intros t Hacc. apply getStoredToken_frame, accepted_not_stale, Hacc. }
  assert (forall h, fst (getHeaders now' w0) = Normal h -> accepted now w0 ->
            constructor injected storage now now' reply
            = Some {| world :=
                        http_send
                          {| method := GET;
                             url := or_else (injected ≫= ReownConfig.baseUrl)
                                      DEFAULT_BASE_URL +:+ "/users/me";
                             body := None; headers := h |}
                          (snd (getStoredToken now' w0));
                      in_flight := [GetUser reply] |}) as Hsent.
  { intros h Hh Hacc. apply read_token_truthy_iff in Hacc as Ht.
    unfold constructor. fold w0.
    rewrite restoreSession_unfold, Ht, (Hkept now Hacc), call_getUser_unfold, Hh.
    destruct injected; reflexivity. }
  split; [|split; [|split]].
  - intros Hno.
    destruct (ToBoolean (read_token now w0)) eqn:Ht.
    { exfalso. apply Hno, read_token_truthy_iff, Ht. }
    unfold constructor. fold w0. rewrite restoreSession_unfold, Ht.
    eexists. split; [reflexivity|]. cbn [world in_flight].
    destruct (read_keeps_or_clears now w0) as [-> | ->].
    + repeat split; auto.
    + rewrite cleared_network, cleared_current_user, cleared_current_session,
        cleared_stored_text.
      repeat split; auto.
  - intros Hacc h Hh.
    rewrite (Hsent h Hh (accepted_earlier now now' w0 Hle Hacc)), (Hkept now' Hacc).
    eexists. split; [reflexivity|].
    destruct reply; repeat split; reflexivity.
  - intros Hacc Hno.
    pose proof (accepted_then_stale now now' w0 Hacc Hno) as Hstale.
    rewrite (Hsent (static_headers (config w0)));
      [|rewrite (getHeaders_plain now' w0 Hno); reflexivity | exact Hacc].
    rewrite (getStoredToken_stale now' w0 Hstale).
    eexists. split; [reflexivity|]. split; [reflexivity|]. split; [reflexivity|].
    unfold session_state, current_user, current_session, stored_text, getItem. simpl.
    rewrite lookup_delete_eq. reflexivity.
  - unfold constructor. fold w0. rewrite restoreSession_unfold. split.
    + destruct (ToBoolean (read_token now w0)) eqn:Ht; [|discriminate].
      apply read_token_truthy_iff in Ht as Hacc.
      rewrite (Hkept now Hacc), call_getUser_unfold.
      destruct (fst (getHeaders now' w0)) as [h|e] eqn:Hh; [discriminate|].
      intros _. split; [exact Hacc|]. intros [h Hh']. congruence.
    + intros [Hacc Hthrows].
      apply read_token_truthy_iff in Hacc as Ht.
      rewrite Ht, (Hkept now Hacc), call_getUser_unfold.
      destruct (fst (getHeaders now' w0)) as [h|e] eqn:Hh; [|reflexivity].
      exfalso. apply Hthrows. exists h. exact Hh.
Qed.

(** X9: the configuration a constructed service has, as the constructor
    leaves it and after the reply of the restore has arrived: the injected
    key and organization id (an empty key when nothing was injected), an
    environment that is always set ([production] unless one was given) and
    a base URL that is never missing nor empty (the default unless a
    non-empty one was given), whatever the restore of the session did.  The
    warning is logged exactly when nothing was injected. *)
Theorem constructor_config (now now' : Z) (injected : option ReownConfig.t)
    (storage : gmap string string) (reply : HttpReply UserResponse) (s : Service)
    (w : World) :
  constructor injected storage now now' reply = Some s ->
  w = world s \/ w = world (step (Arrives 0) s) ->
  ReownConfig.apiKey (config w) = from_option ReownConfig.apiKey "" injected
  /\ ReownConfig.organizationId (config w) = injected ≫= ReownConfig.organizationId
  /\ ReownConfig.environment (config w)
     = Some (default production (injected ≫= ReownConfig.environment))
  /\ ReownConfig.baseUrl (config w)
     = Some (or_else (injected ≫= ReownConfig.baseUrl) DEFAULT_BASE_URL)
  /\ or_else (injected ≫= ReownConfig.baseUrl) DEFAULT_BASE_URL <> ""
  /\ (In "ReownAppKit: No configuration provided." (console w) <-> injected = None).
Proof.
  set (w0 := initial_world injected storage).
  intros Hnew Hw.
  assert (config w = config w0
          /\ (console w = console w0
              \/ console w = "ReownAppKit: Get user failed" :: console w0))
    as [Hconfig Hconsole].
  { destruct (constructor_cases now now' injected storage reply s Hnew)
      as [[_ ->] | (_ & h & _ & ->)]; fold w0 in Hw |- *;
      destruct Hw as [-> | ->]; simpl;
      try (destruct reply; simpl);
      rewrite ?getStoredToken_config, ?getStoredToken_console; auto. }
  rewrite Hconfig.
  split; [|split; [|split; [|split; [|split]]]].
  - destruct injected; reflexivity.
  - destruct injected; reflexivity.
  - destruct injected as [c|]; simpl; [destruct (ReownConfig.environment c)|];
      reflexivity.
  - destruct injected; reflexivity.
  - apply or_else_not_empty. discriminate.
  - destruct injected as [c|]; simpl in Hconsole.
    + split; [|discriminate].
      destruct Hconsole as [-> | ->]; simpl; [tauto|].
      intros [H | []]. discriminate.
    + split; [reflexivity|]. intros _.
      destruct Hconsole as [-> | ->]; simpl; auto.
Qed.

Lemma getHeaders_lookup (now : Z) (w : World) (h : gmap string string) :
  fst (getHeaders now w) = Normal h ->
  h !! "X-API-Key" = Some (ReownConfig.apiKey (config w))
  /\ (forall o, ReownConfig.organizationId (config w) = Some o -> o <> "" ->
                h !! "X-Organization-ID" = Some o)
  /\ (is_Some (h !! "Authorization") <-> accepted now w)
  /\ (forall k, is_Some (h !! k) -> In k header_names).
Proof.
  intros Hh.
  destruct (static_headers_lookup (config w)) as (_ & Hk & Hauth & Ho).
  assert (forall k, is_Some (static_headers (config w) !! k) -> In k header_names)
    as Hnames.
  { intros k. unfold static_headers, header_names.
    destruct (truthy (ReownConfig.organizationId (config w)));
      intros [x Hx]; simpl;
      repeat (apply lookup_insert_Some in Hx as [[<- _] | [_ Hx]]; [tauto|]);
      rewrite lookup_empty in Hx; discriminate. }
  pose proof (getHeaders_cases now w) as Hcases.
  destruct (getHeaders now w) as [r w''] eqn:Hrun. simpl in Hh. subst r.
  inversion Hcases as [Hno Hheaders | b Hyes Hb Hheaders | ]; subst.
  - split; [exact Hk|]. split; [|split].
    + intros o Hc Hne. apply Ho. auto.
    + rewrite Hauth. split; [intros [x Hx]; discriminate|].
      intros Hyes. exfalso. apply Hno, Hyes.
    + exact Hnames.
  - rewrite !lookup_insert_ne by discriminate. rewrite lookup_insert_eq.
    split; [exact Hk|]. split; [|split].
    + intros o Hc Hne. apply Ho. auto.
    + split; [intros _; exact Hyes | eauto].
    + intros k [x Hx].
      apply lookup_insert_Some in Hx as [[<- _] | [_ Hx]];
        [unfold header_names; simpl; tauto | apply Hnames; eauto].
Qed.

(** X10: [init(config)] touches nothing but the configuration, and the
    headers built after it carry the new key and a non-empty organization
    id the argument carried, while [Authorization] still depends on the
    stored text alone.  A base URL the argument carries is taken as it is,
    also an empty one: the default of the constructor is not applied
    again. *)
Theorem init_then_getHeaders (now : Z) (c : ReownConfig.t) (w : World) :
  fst (init c w) = Normal tt
  /\ localStorage (snd (init c w)) = localStorage w
  /\ currentUserSubject (snd (init c w)) = currentUserSubject w
  /\ currentSessionSubject (snd (init c w)) = currentSessionSubject w
  /\ network (snd (init c w)) = network w
  /\ console (snd (init c w)) = console w
  /\ (forall h, fst (getHeaders now (snd (init c w))) = Normal h ->
      h !! "X-API-Key" = Some (ReownConfig.apiKey c)
      /\ (forall o, ReownConfig.organizationId c = Some o -> o <> "" ->
                    h !! "X-Organization-ID" = Some o)
      /\ (is_Some (h !! "Authorization") <-> accepted now w))
  /\ (forall b, ReownConfig.baseUrl c = Some b ->
                ReownConfig.baseUrl (config (snd (init c w))) = Some b).
Proof.
  repeat (split; [reflexivity|]).
  split; [|intros b Hb; unfold init; unfold_eff; simpl; rewrite Hb; reflexivity].
  intros h Hh.
  destruct (getHeaders_lookup now _ h Hh) as (Hk & Ho & Hauth & _).
  split; [exact Hk|]. split.
  - intros o Hc Hne. apply Ho; [|exact Hne].
    unfold init. unfold_eff. simpl. rewrite Hc. reflexivity.
  - rewrite Hauth. split; apply accepted_stored_text; reflexivity.
Qed.

(** X11: the request headers carry no name but [Content-Type],
    [X-API-Key], [X-Organization-ID] and [Authorization], so at most four
    of them. *)
Theorem getHeaders_names (now : Z) (w : World) (h : gmap string string) :
  fst (getHeaders now w) = Normal h ->
  (forall k, is_Some (h !! k) -> In k header_names)
  /\ (size h <= 4)%nat.
Proof.
  intros Hh.
  destruct (getHeaders_lookup now w h Hh) as (_ & _ & _ & Hnames).
  split; [exact Hnames|].
  assert (dom h ⊆ list_to_set header_names) as Hsub.
  { intros k Hk. apply elem_of_dom in Hk. apply elem_of_list_to_set.
    apply list_elem_of_In, Hnames, Hk. }
  rewrite <- size_dom.
  etransitivity; [apply (subseteq_size _ _ Hsub)|].
  vm_compute. lia.
Qed.

(** *** Where the state comes from *)

Lemma cleared_console (w : World) : console (cleared w) = console w.
Proof. reflexivity. Qed.

Lemma cleared_config (w : World) : config (cleared w) = config w.
Proof. reflexivity. Qed.

(** X12: after any operation the stored text, the current user and the
    current session are each either what they were, or null, or what the
    reply of that operation brought: only a successful signUp or signIn
    writes a token, only a successful signIn sets a session, and a failed
    request sets nothing. *)
Theorem run_state_provenance (now : Z) (op : Operation) (w : World) :
  (stored_text (run now op w) = stored_text w
   \/ stored_text (run now op w) = None
   \/ exists token, issued_token op = Some token
        /\ stored_text (run now op w) = Some (JSON_stringify token))
  /\ (current_user (run now op w) = current_user w
      \/ current_user (run now op w) = None
      \/ exists user, issued_user op = Some user
           /\ current_user (run now op w) = Some user)
  /\ (current_session (run now op w) = current_session w
      \/ current_session (run now op w) = None
      \/ exists email password r, op = SignIn email password (HttpSuccess r)
           /\ current_session (run now op w) = Some (signIn_session r)).
Proof.
  assert (forall w1, w1 = w \/ w1 = cleared w ->
            (stored_text w1 = stored_text w \/ stored_text w1 = None)
            /\ (current_user w1 = current_user w \/ current_user w1 = None)
            /\ (current_session w1 = current_session w \/ current_session w1 = None))
    as Hread.
  { intros w1 [-> | ->]; [tauto|].
    rewrite cleared_stored_text, cleared_current_user, cleared_current_session.
    tauto. }
  pose proof (Hread _ (read_keeps_or_clears now w)) as (Hs & Hu & Hc).
  destruct op as [e p u [r|err] | e p [r|err] | reply | [r|err] | u [r|err]
                 | e [r|err] | t p [r|err] | | ]; simpl;
    try (unfold_operation;
         destruct (fst (getHeaders now w)); simpl;
         rewrite ?getHeaders_world;
         revert Hs Hu Hc; generalize (snd (getStoredToken now w)); intros w1;
         unfold stored_text, current_user, current_session, getItem, setItem;
         simpl; rewrite ?lookup_insert_eq; intros Hs Hu Hc;
         (split; [|split]); eauto 8; tauto).
  - destruct (signOut_cases now reply w) as [(w0 & -> & _) | (-> & _)]; simpl.
    + rewrite cleared_stored_text, cleared_current_user, cleared_current_session.
      tauto.
    + tauto.
  - destruct (isAuthenticated_world now w) as [-> | ->]; tauto.
Qed.

(** *** signUp and signOut on the wire *)

Lemma own_property_set_field (k : string) (v : JSValue)
    (fields : list (string * JSValue)) (key : string) :
  own_property (set_field k v fields) key
  = if String.eqb k key then v else own_property fields key.
Proof.
  induction fields as [|[k' v'] rest IH]; simpl.
  - reflexivity.
  - destruct (String.eqb_spec k' k) as [-> | Hother]; simpl.
    + destruct (String.eqb k key); reflexivity.
    + rewrite IH. destruct (String.eqb_spec k' key) as [-> | Hkey]; [|reflexivity].
      apply String.eqb_neq in Hother. rewrite String.eqb_sym, Hother. reflexivity.
Qed.

(** [{...a, ...b}.key] for an object [b]: the property of [b] if it has
    its own, the one of [a] otherwise. *)
Lemma own_property_spread (a b : list (string * JSValue)) (key : string) :
  NoDup (map fst b) ->
  own_property (spread a b) key
  = if decide (key ∈ map fst b) then own_property b key else own_property a key.
Proof.
  unfold spread. revert a. induction b as [|[k v] rest IH]; intros a Hnodup.
  - destruct (decide (key ∈ map fst [])) as [Hin | _]; [|reflexivity].
    apply elem_of_nil in Hin. contradiction.
  - apply NoDup_cons in Hnodup as [Hfresh Hrest].
    change (own_property
              (fold_left (fun acc kv => set_field (fst kv) (snd kv) acc) rest
                 (set_field k v a)) key
            = if decide (key ∈ k :: map fst rest)
              then (if String.eqb k key then v else own_property rest key)
              else own_property a key).
    rewrite (IH _ Hrest), own_property_set_field.
    destruct (String.eqb_spec k key) as [-> | Hother].
    + destruct (decide (key ∈ map fst rest)); [contradiction|].
      destruct (decide (key ∈ key :: map fst rest)) as [_ | Hout]; [reflexivity|].
      exfalso. apply Hout, list_elem_of_here.
    + destruct (decide (key ∈ map fst rest)) as [Hin | Hout];
        destruct (decide (key ∈ k :: map fst rest)) as [Hin' | Hout']; try reflexivity.
      * exfalso. apply Hout', list_elem_of_further, Hin.
      * apply elem_of_cons in Hin' as [-> | Hin']; contradiction.
Qed.

(** X13: the signUp request is a POST to [<base>/users] with the built
    headers, and its body is [{ email, password, ...userData }] for
    whatever own properties [userData] has (an object: no key twice): a
    property [userData] carries is sent with the value [userData] gives
    it, also under the names [email] and [password], where it replaces the
    argument; a property [userData] does not carry is the [email] or the
    [password] argument under those two names, and is absent otherwise.
    So a [userData] without an e-mail keeps the [email] argument. *)
Theorem signUp_request (now : Z) (email password : string)
    (userData : option PartialUser.t) (reply : HttpReply SignUpResponse)
    (w : World) (h : gmap string string) :
  fst (getHeaders now w) = Normal h ->
  NoDup (map fst (default [] userData)) ->
  exists r b,
    network (snd (signUp email password userData now reply w)) = r :: network w
    /\ method r = POST
    /\ url r = template (ReownConfig.baseUrl (config w)) +:+ "/users"
    /\ headers r = h
    /\ body r = Some b
    /\ (forall key,
          member b key
          = if decide (key ∈ map fst (default [] userData))
            then own_property (default [] userData) key
            else if String.eqb key "email" then JString email
            else if String.eqb key "password" then JString password
            else JUndefined)
    /\ ("email" ∉ map fst (default [] userData) ->
        member b "email" = JString email).
Proof.
  intros Hh Hobject.
  unfold signUp, signUp_post, signUp_pipe. unfold_eff. rewrite http_request_unfold, Hh.
  eexists. eexists.
  split.
  { destruct reply; simpl; rewrite ?getHeaders_world, ?getStoredToken_network;
      reflexivity. }
  repeat (split; [reflexivity|]).
  assert (forall key,
            own_property
              (spread [("email", JString email); ("password", JString password)]
                 (default [] userData)) key
            = if decide (key ∈ map fst (default [] userData))
              then own_property (default [] userData) key
              else if String.eqb key "email" then JString email
              else if String.eqb key "password" then JString password
              else JUndefined) as Hbody.
  { intros key. rewrite (own_property_spread _ _ key Hobject).
    destruct (decide (key ∈ map fst (default [] userData))); [reflexivity|].
    rewrite (String.eqb_sym key "email"), (String.eqb_sym key "password").
    reflexivity. }
  split; [exact Hbody|].
  intros Hnone. simpl. rewrite Hbody.
  destruct (decide ("email" ∈ map fst (default [] userData))); [contradiction | reflexivity].
Qed.

(** X14: a session whose id is the empty string counts as no session:
    signOut sends nothing, whatever the stored text is, and clears the
    stored text, the user and the session. *)
Theorem signOut_empty_session_id (now : Z) (reply : HttpReply unit) (w : World)
    (s : ReownSession.t) :
  current_session w = Some s ->
  ReownSession.id s = "" ->
  signOut now reply w = (Normal (Emits tt), cleared w)
  /\ network (cleared w) = network w
  /\ session_state (cleared w) = (None, None, None).
Proof.
  intros Hs Hid. split; [|split].
  - unfold signOut, signOut_delete, signOut_pipe, current_session in *. unfold_eff. simpl. rewrite Hs. simpl.
    rewrite Hid. reflexivity.
  - apply cleared_network.
  - unfold session_state.
    rewrite cleared_stored_text, cleared_current_user, cleared_current_session.
    reflexivity.
Qed.

(** X15: with a session whose id is not empty, and headers that can be
    built, signOut sends exactly one request, [DELETE
    <base>/sessions/<id>] with no body and with the headers built before
    anything is cleared, and then emits and leaves no stored text, no user
    and no session; a failure of the request changes only the log. *)
Theorem signOut_request (now : Z) (reply : HttpReply unit) (w : World)
    (s : ReownSession.t) (h : gmap string string) :
  current_session w = Some s ->
  ReownSession.id s <> "" ->
  fst (getHeaders now w) = Normal h ->
  exists w',
    signOut now reply w = (Normal (Emits tt), w')
    /\ network w'
       = {| method := DELETE;
            url := template (ReownConfig.baseUrl (config w))
                   +:+ "/sessions/" +:+ ReownSession.id s;
            body := None; headers := h |} :: network w
    /\ session_state w' = (None, None, None)
    /\ console w' = match reply with
                    | HttpSuccess _ => console w
                    | HttpFailure _ => "ReownAppKit: Sign out failed" :: console w
                    end
    /\ config w' = config w.
Proof.
  intros Hs Hid Hh.
  unfold signOut, signOut_delete, signOut_pipe, current_session in *. unfold_eff. simpl. rewrite Hs. simpl.
  apply String.eqb_neq in Hid. rewrite Hid. simpl.
  rewrite http_request_unfold, Hh.
  destruct reply as [[]|err]; simpl; rewrite ?getHeaders_world;
    (eexists; split; [reflexivity|]);
    unfold session_state, stored_text, current_user, current_session, getItem;
    simpl;
    rewrite lookup_delete_eq, getStoredToken_network, ?getStoredToken_console,
      getStoredToken_config;
    repeat split.
Qed.

(** X16: signUp sets no session, so from a state with no session a
    signOut that follows a signUp, successful or not, never tells the
    server: it sends no request and just clears the stored token and the
    user the signUp may have set. *)
Theorem signUp_then_signOut (now now' : Z) (email password : string)
    (userData : option PartialUser.t) (reply : HttpReply SignUpResponse)
    (reply' : HttpReply unit) (w : World) :
  current_session w = None ->
  signOut now' reply' (snd (signUp email password userData now reply w))
  = (Normal (Emits tt), cleared (snd (signUp email password userData now reply w)))
  /\ network (cleared (snd (signUp email password userData now reply w)))
     = network (snd (signUp email password userData now reply w))
  /\ session_state (cleared (snd (signUp email password userData now reply w)))
     = (None, None, None).
Proof.
  intros Hs.
  assert (current_session (snd (signUp email password userData now reply w)) = None)
    as Hnone.
  { assert (current_session (snd (getStoredToken now w)) = None) as Hread.
    { destruct (read_keeps_or_clears now w) as [-> | ->];
        [exact Hs | apply cleared_current_session]. }
    unfold signUp, signUp_post, signUp_pipe, rethrow, setToken. unfold_eff. rewrite http_request_unfold.
    destruct (fst (getHeaders now w)); [destruct reply|]; simpl;
      rewrite ?getHeaders_world; exact Hread. }
  split; [|split].
  - generalize dependent (snd (signUp email password userData now reply w)).
    intros w1 Hw1. unfold signOut, signOut_delete, signOut_pipe, current_session in *. unfold_eff. simpl.
    rewrite Hw1. reflexivity.
  - apply cleared_network.
  - unfold session_state.
    rewrite cleared_stored_text, cleared_current_user, cleared_current_session.
    reflexivity.
Qed.

(** *** Runs *)

(** X17: over a run of operations the requests handed to [HttpClient]
    only accumulate: the earlier ones stay, in their order, below at most
    one new request per operation; and the configuration stays what it
    was. *)
Theorem run_all_network (ops : list (Z * Operation)) (w : World) :
  exists sent,
    network (run_all ops w) = (sent ++ network w)%list
    /\ (length sent <= length ops)%nat
    /\ config (run_all ops w) = config w.
Proof.
  revert w. induction ops as [| [t op] ops IH]; intros w.
  - exists []. repeat split; auto.
  - destruct (IH (run t op w)) as (sent & Hnet & Hlen & Hconfig).
    assert (exists new, network (run t op w) = (new ++ network w)%list
                        /\ (length new <= 1)%nat) as (new & Hnew & Hone).
    { destruct (run_network t op w) as [Hquiet Hsent].
      destruct (sends op w) eqn:Hsends; [|exists []; split; auto].
      destruct (fst (getHeaders t w)) as [h|e] eqn:Hh.
      - destruct Hsent as [r Hr]; [reflexivity | exists h; exact Hh |].
        exists [r]. split; auto.
      - exists []. split; [|auto]. apply Hquiet. right. intros [h Hh']. congruence. }
    exists (sent ++ new)%list. simpl. fold (run_all ops (run t op w)).
    rewrite Hnet, Hnew, Hconfig, run_config, length_app, <- app_assoc.
    repeat split; auto. lia.
Qed.

(** X18: an operation that cannot build its headers changes nothing at
    all: no request, no log line, and the stored text (one the service
    accepts, with a token that has no string), the user and the session
    stay exactly as they were. *)
Theorem unbuilt_request_changes_nothing (now : Z) (op : Operation) (w : World) :
  sends op w = true ->
  ~ completes (getHeaders now w) ->
  run now op w = w /\ accepted now w /\ unprintable_token w.
Proof.
  intros Hsends Hthrows.
  pose proof (getHeaders_cases now w) as Hcases.
  destruct (getHeaders now w) as [c w'] eqn:Hrun.
  inversion Hcases as [Hno Hc | b Hyes Hb Hc | Hyes Hodd Hc]; subst;
    try (exfalso; apply Hthrows; eexists; reflexivity).
  split; [|split; assumption].
  pose proof (getStoredToken_frame now _ (accepted_not_stale now _ Hyes)) as Hkept.
  destruct op as [e p u reply | e p reply | reply | reply | u reply
                 | e reply | t p reply | | ]; simpl in *; try discriminate;
    unfold_operation; unfold current_session in *; rewrite ?Hsends; simpl;
    rewrite ?http_request_unfold, Hrun; simpl; exact Hkept.
Qed.

Lemma run_other_keys (now : Z) (op : Operation) (w : World) (k : string) :
  k <> tokenStorageKey ->
  localStorage (run now op w) !! k = localStorage w !! k.
Proof.
  intros Hk.
  assert (localStorage (snd (getStoredToken now w)) !! k = localStorage w !! k)
    as Hread.
  { destruct (read_keeps_or_clears now w) as [-> | ->]; [reflexivity|].
    apply lookup_delete_ne. congruence. }
  destruct op as [e p u [r|err] | e p [r|err] | reply | [r|err] | u [r|err]
                 | e [r|err] | t p [r|err] | | ]; simpl;
    try (unfold_operation;
         destruct (fst (getHeaders now w)); simpl;
         rewrite ?getHeaders_world, ?lookup_insert_ne by congruence;
         exact Hread).
  - unfold signOut, signOut_delete, signOut_pipe. unfold_eff. simpl.
    destruct (truthy (option_map ReownSession.id (value (currentSessionSubject w))));
      simpl; [|apply lookup_delete_ne; congruence].
    rewrite http_request_unfold.
    destruct (fst (getHeaders now w)); [destruct reply|]; simpl;
      rewrite ?getHeaders_world, ?lookup_delete_ne by congruence; exact Hread.
  - destruct (isAuthenticated_world now w) as [-> | ->]; auto.
Qed.

(** X19: the service reads and writes one key of [localStorage] only:
    whatever is stored under another key is still there, unchanged, after
    any run of operations. *)
Theorem run_all_other_keys (ops : list (Z * Operation)) (w : World) (k : string) :
  k <> tokenStorageKey ->
  localStorage (run_all ops w) !! k = localStorage w !! k.
Proof.
  intros Hk. revert w. induction ops as [| [t op] ops IH]; intros w; [reflexivity|].
  simpl. fold (run_all ops (run t op w)).
  rewrite IH. apply run_other_keys, Hk.
Qed.

End Properties.






(** ** Instances on the reference runtime *)

Example reference_t1_text :
  Example.t1_text
  = Example.js "{'token':'t1','expiresAt':'2026-11-03T09:00:00.000Z'}".
Proof. vm_compute; reflexivity. Qed.

Example reference_parse_t1 :
  Reference.JSON_parse Example.t1_text
  = Some (JObject [("token", JString "t1");
                   ("expiresAt", JString "2026-11-03T09:00:00.000Z")]).
Proof. vm_compute; reflexivity. Qed.

Example reference_parse_odd :
  Reference.JSON_parse Example.odd_text
  = Some (JObject [("token", JObject [("toString", JNumber (Finite 1))])]).
Proof. vm_compute; reflexivity. Qed.

Example reference_parse_garbage : Reference.JSON_parse "{oops" = None.
Proof. vm_compute; reflexivity. Qed.

Example reference_Date_parse :
  Reference.Date_parse "2026-11-03T08:00:00.000Z" = Some Example.now
  /\ Reference.Date_parse "1970-01-01T00:00:00.000Z" = Some 0%Z
  /\ Reference.Date_parse "2026-02-30T00:00:00.000Z" = None.
Proof. repeat split; vm_compute; reflexivity. Qed.

Example reference_ToString :
  ToString (rt := Reference.runtime)
    (JArray [JNumber (Finite 1); JNull; JArray [JString "a"; JBoolean true]; JObject []])
  = Some "1,,a,true,[object Object]"
  /\ ToString (rt := Reference.runtime) (JObject [("toString", JNull)]) = None.
Proof. split; vm_compute; reflexivity. Qed.

(** A read of a stored token that is good for another hour. *)
Example reference_read_t1 :
  getStoredToken (rt := Reference.runtime) Example.now
    (Example.signed_in_with Example.t1_text)
  = (Normal (JObject [("token", JString "t1");
                      ("expiresAt", JString "2026-11-03T09:00:00.000Z")]),
     Example.signed_in_with Example.t1_text).
Proof.
  apply (getStoredToken_valid (rt := Reference.runtime) Example.now
           (Example.signed_in_with Example.t1_text) Example.t1_text).
  - vm_compute; reflexivity.
  - vm_compute; reflexivity.
  - eexists. eexists. split; [reflexivity|].
    split; [vm_compute; reflexivity | vm_compute; discriminate].
Qed.

Lemma reference_t1_persists : persists (rt := Reference.runtime) Example.t1.
Proof.
  eexists. split; [vm_compute; reflexivity|].
  split; [vm_compute; reflexivity | vm_compute; reflexivity].
Qed.

Lemma reference_t0_expired :
  expired_at (rt := Reference.runtime) Example.now Example.t0_text.
Proof.
  eexists. eexists. split; [vm_compute; reflexivity|].
  split; [vm_compute; reflexivity | vm_compute; reflexivity].
Qed.

(** The JSON text of the empty object holds no token. *)
Lemma reference_empty_object_no_token (now : Z) (w : World) :
  stored_text w = Some "{}" -> ~ valid_token_stored (rt := Reference.runtime) now w.
Proof.
  intros Hw (s & v & Hs & Hp & tok & t & Htok & _).
  assert (s = "{}") as -> by congruence.
  vm_compute in Hp. injection Hp as <-. discriminate Htok.
Qed.

(** The JSON text [0] is stored, parses, and carries no [expiresAt]. *)
Lemma reference_zero_parseable_unexpired (now : Z) :
  parseable_unexpired_stored (rt := Reference.runtime) now (Example.signed_in_with "0").
Proof.
  exists "0", (JNumber (Finite 0)).
  split; [vm_compute; reflexivity|].
  split; [vm_compute; reflexivity|].
  intros (v & t & Hp & Ht & _).
  vm_compute in Hp. injection Hp as <-. discriminate Ht.
Qed.

Lemma reference_started :
  constructor (rt := Reference.runtime) (Some Example.cfg) ∅ Example.now Example.now
    (HttpFailure Example.failure)
  = Some Example.fresh.
Proof. vm_compute; reflexivity. Qed.

Lemma reference_restoring :
  constructor (rt := Reference.runtime) (Some Example.cfg)
    {[ tokenStorageKey := Example.t1_text ]} Example.now Example.now Example.user_reply
  = Some Example.restoring.
Proof. vm_compute; reflexivity. Qed.

(** C1, witness: an expired token is cleared by the read. *)
Lemma getStoredToken_clears_unusable_witness :
  fst (getStoredToken (rt := Reference.runtime) Example.now
         (Example.signed_in_with Example.t0_text))
  = Normal JNull
  /\ stored_text
       (snd (getStoredToken (rt := Reference.runtime) Example.now
               (Example.signed_in_with Example.t0_text)))
     = None.
Proof.
  apply (proj1 (getStoredToken_clears_unusable (rt := Reference.runtime) Example.now
                  (Example.signed_in_with Example.t0_text))).
  right. exists Example.t0_text. split; [vm_compute; reflexivity|].
  split; [vm_compute; discriminate|].
  right. exact reference_t0_expired.
Defined.

(** C1, counterexample: the empty text fails to parse; the read returns
    null and the storage key is still there afterwards. *)
Lemma getStoredToken_keeps_empty_text :
  stored_text (Example.signed_in_with "") = Some ""
  /\ fails_to_parse (rt := Reference.runtime) ""
  /\ fst (getStoredToken (rt := Reference.runtime) Example.now (Example.signed_in_with ""))
     = Normal JNull
  /\ stored_text
       (snd (getStoredToken (rt := Reference.runtime) Example.now
               (Example.signed_in_with "")))
     = Some "".
Proof. repeat split; vm_compute; reflexivity. Qed.

(** C7, counterexample: the text [{}] is valid JSON and no token; the read
    returns the empty object, not null. *)
Lemma getStoredToken_returns_non_token :
  stored_text (Example.signed_out_with "{}") = Some "{}"
  /\ ~ valid_token_stored (rt := Reference.runtime) Example.now
         (Example.signed_out_with "{}")
  /\ fst (getStoredToken (rt := Reference.runtime) Example.now
            (Example.signed_out_with "{}"))
     = Normal (JObject [])
  /\ fst (getStoredToken (rt := Reference.runtime) Example.now
            (Example.signed_out_with "{}"))
     <> Normal JNull.
Proof.
  split; [vm_compute; reflexivity|].
  split; [apply reference_empty_object_no_token; vm_compute; reflexivity|].
  split; [vm_compute; reflexivity | vm_compute; discriminate].
Qed.

(** C6, counterexample: with a current user and the text [{}] stored,
    [isAuthenticated()] is true though no valid token is stored; with a
    current user and the text [0] stored, which is present, parseable and
    not expired, it is false. *)
Lemma isAuthenticated_without_token :
  (current_user (Example.signed_in_with "{}") = Some Example.u1
   /\ ~ valid_token_stored (rt := Reference.runtime) Example.now
          (Example.signed_in_with "{}")
   /\ fst (isAuthenticated (rt := Reference.runtime) Example.now
             (Example.signed_in_with "{}"))
      = Normal true)
  /\ (current_user (Example.signed_in_with "0") = Some Example.u1
      /\ parseable_unexpired_stored (rt := Reference.runtime) Example.now
           (Example.signed_in_with "0")
      /\ fst (isAuthenticated (rt := Reference.runtime) Example.now
                (Example.signed_in_with "0"))
         = Normal false).
Proof.
  split.
  - split; [reflexivity|].
    split; [apply reference_empty_object_no_token; vm_compute; reflexivity|].
    vm_compute; reflexivity.
  - split; [reflexivity|].
    split; [apply reference_zero_parseable_unexpired|].
    vm_compute; reflexivity.
Qed.

Lemma reference_t1_valid (t : Z) (w : World) :
  (t <= Example.now + 3600000)%Z ->
  stored_text w = Some Example.t1_text ->
  valid_token_stored (rt := Reference.runtime) t w.
Proof.
  intros Ht Hs. apply (persists_valid t Example.t1);
    [exact reference_t1_persists | exact Ht | exact Hs].
Qed.

(** C8, counterexample: with the text [{}] stored the headers carry an
    [Authorization] though no valid token is stored; with the text [0]
    stored, which is present, parseable and not expired, they are built
    and carry none; and with a [token] that has no string stored, no
    headers are built: [getHeaders()] throws. *)
Lemma getHeaders_authorization_without_token :
  (~ valid_token_stored (rt := Reference.runtime) Example.now
       (Example.signed_in_with "{}")
   /\ header (getHeaders (rt := Reference.runtime) Example.now
                (Example.signed_in_with "{}")) "Authorization"
      = Some "Bearer undefined")
  /\ (parseable_unexpired_stored (rt := Reference.runtime) Example.now
        (Example.signed_in_with "0")
      /\ header (getHeaders (rt := Reference.runtime) Example.now
                   (Example.signed_in_with "0")) "Authorization"
         = None
      /\ header (getHeaders (rt := Reference.runtime) Example.now
                   (Example.signed_in_with "0")) "Content-Type"
         = Some "application/json")
  /\ fst (getHeaders (rt := Reference.runtime) Example.now
            (Example.signed_in_with Example.odd_text))
     = Thrown TypeError.
Proof.
  split; [|split].
  - split; [apply reference_empty_object_no_token; vm_compute; reflexivity|].
    vm_compute; reflexivity.
  - split; [apply reference_zero_parseable_unexpired|].
    split; vm_compute; reflexivity.
  - vm_compute; reflexivity.
Qed.

(** C8, witness: the headers built with the token [t1] stored. *)
Lemma getHeaders_contents_witness :
  header (getHeaders (rt := Reference.runtime) Example.now
            (Example.signed_in_with Example.t1_text)) "Authorization"
  = Some "Bearer t1"
  /\ header (getHeaders (rt := Reference.runtime) Example.now
               (Example.signed_in_with Example.t1_text)) "X-API-Key"
     = Some "key-123"
  /\ header (getHeaders (rt := Reference.runtime) Example.now
               (Example.signed_in_with Example.t1_text)) "X-Organization-ID"
     = Some "org-9".
Proof.
  unfold header.
  destruct (fst (getHeaders (rt := Reference.runtime) Example.now
                   (Example.signed_in_with Example.t1_text))) as [h | e] eqn:Hbuilt.
  - destruct (getHeaders_contents (rt := Reference.runtime) Example.now
                (Example.signed_in_with Example.t1_text))
      as (_ & _ & Hcontents).
    destruct (Hcontents h Hbuilt) as (_ & Hkey & Horg & _ & Hauth & _).
    split; [|split; [exact Hkey | apply Horg; split; [reflexivity | discriminate]]].
    apply (Hauth Example.t1_text
             (JObject [("token", JString "t1");
                       ("expiresAt", JString "2026-11-03T09:00:00.000Z")])).
    + vm_compute; reflexivity.
    + vm_compute; reflexivity.
    + eexists. eexists. split; [reflexivity|].
      split; [vm_compute; reflexivity | vm_compute; discriminate].
    + reflexivity.
  - exfalso.
    destruct (getHeaders_completes (rt := Reference.runtime) Example.now
                (Example.signed_in_with Example.t1_text)) as [h Hh].
    + right. apply reference_t1_valid; [vm_compute; discriminate | vm_compute; reflexivity].
    + congruence.
Defined.

(** C5, counterexample: a signIn that fails while an expired token is
    stored leaves no user, no session and no stored text. *)
Lemma failed_signIn_clears_expired_session :
  session_state (Example.signed_in_with Example.t0_text)
  = (Some Example.u1, Some Example.s1, Some Example.t0_text)
  /\ fst (signIn (rt := Reference.runtime) "ada@example.org" "secret" Example.now
            (HttpFailure Example.failure) (Example.signed_in_with Example.t0_text))
     = Normal (Errors "Invalid credentials")
  /\ session_state
       (snd (signIn (rt := Reference.runtime) "ada@example.org" "secret" Example.now
               (HttpFailure Example.failure) (Example.signed_in_with Example.t0_text)))
     = (None, None, None).
Proof. repeat split; vm_compute; reflexivity. Qed.

(** C5, witness: a signIn that fails while the token [t1] is stored. *)
Lemma failed_signUp_signIn_witness :
  fst (signIn (rt := Reference.runtime) "ada@example.org" "secret" Example.now
         (HttpFailure Example.failure) (Example.signed_in_with Example.t1_text))
  = Normal (Errors "Invalid credentials")
  /\ fst (signUp (rt := Reference.runtime) "ada@example.org" "secret" None Example.now
            (HttpFailure Example.silent_failure) (Example.signed_in_with Example.t1_text))
     = Normal (Errors "Sign up failed")
  /\ session_state
       (snd (signIn (rt := Reference.runtime) "ada@example.org" "secret" Example.now
               (HttpFailure Example.failure) (Example.signed_in_with Example.t1_text)))
     = session_state
         (snd (getStoredToken (rt := Reference.runtime) Example.now
                 (Example.signed_in_with Example.t1_text))).
Proof.
  assert (completes (getHeaders (rt := Reference.runtime) Example.now
                       (Example.signed_in_with Example.t1_text))) as Hbuilt.
  { apply getHeaders_completes. right.
    apply reference_t1_valid; [vm_compute; discriminate | vm_compute; reflexivity]. }
  destruct (failed_signUp_signIn (rt := Reference.runtime) Example.now
              (Example.signed_in_with Example.t1_text) "ada@example.org" "secret" None
              Example.failure Hbuilt) as (Hmessage & _ & _ & Hstate & _).
  destruct (failed_signUp_signIn (rt := Reference.runtime) Example.now
              (Example.signed_in_with Example.t1_text) "ada@example.org" "secret" None
              Example.silent_failure Hbuilt) as (_ & Hfallback & _).
  split; [apply (Hmessage "Invalid credentials"); [reflexivity | discriminate]|].
  split; [apply Hfallback; left; reflexivity | exact Hstate].
Defined.

(** C3, witness: the scenario of the specification. *)
Lemma signIn_success_witness :
  option_map ReownUser.id
    (current_user
       (snd (signIn (rt := Reference.runtime) "ada@example.org" "secret" Example.now
               (HttpSuccess Example.sign_in_response) Example.started)))
  = Some "u1"
  /\ fst (isAuthenticated (rt := Reference.runtime) Example.now
            (snd (signIn (rt := Reference.runtime) "ada@example.org" "secret" Example.now
                    (HttpSuccess Example.sign_in_response) Example.started)))
     = Normal true.
Proof.
  destruct (signIn_success (rt := Reference.runtime) Example.now Example.now
              Example.started "ada@example.org" "secret" Example.sign_in_response)
    as (_ & Huser & _ & _ & _ & Hauth).
  - eexists. vm_compute; reflexivity.
  - exact reference_t1_persists.
  - vm_compute; reflexivity.
  - split; [rewrite Huser; reflexivity | exact Hauth].
Defined.


(** signOut with a session and the token [t1] stored, the HTTP call
    failing. *)
Lemma signOut_clears_when_it_returns_witness :
  fst (signOut (rt := Reference.runtime) Example.now (HttpFailure Example.failure)
         (Example.signed_in_with Example.t1_text))
  = Normal (Emits tt)
  /\ session_state
       (snd (signOut (rt := Reference.runtime) Example.now (HttpFailure Example.failure)
               (Example.signed_in_with Example.t1_text)))
     = (None, None, None).
Proof.
  destruct (signOut_clears_when_it_returns (rt := Reference.runtime) Example.now
              Example.now (HttpFailure Example.failure)
              (Example.signed_in_with Example.t1_text)) as [Hclears Hreturns].
  destruct Hclears as (Hout & Huser & Hsession & Hstored & _).
  - apply Hreturns. right. right.
    apply reference_t1_valid; [vm_compute; discriminate | vm_compute; reflexivity].
  - split; [exact Hout|]. unfold session_state. rewrite Huser, Hsession, Hstored.
    reflexivity.
Defined.

(** C9, witness: signing out with no session and a token stored. *)
Lemma signOut_without_session_witness :
  signOut (rt := Reference.runtime) Example.now (HttpFailure Example.failure)
    (Example.signed_out_with Example.t1_text)
  = (Normal (Emits tt), cleared (Example.signed_out_with Example.t1_text))
  /\ network
       (snd (signOut (rt := Reference.runtime) Example.now (HttpFailure Example.failure)
               (Example.signed_out_with Example.t1_text)))
     = [].
Proof.
  destruct (signOut_without_session (rt := Reference.runtime) Example.now
              (HttpFailure Example.failure) (Example.signed_out_with Example.t1_text)
              eq_refl)
    as (Hout & Hnet & _).
  split; [exact Hout | exact Hnet].
Defined.

(** C10, witness: no user and an expired token stored; the check leaves
    the expired token where it is. *)
Lemma isAuthenticated_without_user_witness :
  isAuthenticated (rt := Reference.runtime) Example.now
    (Example.signed_out_with Example.t0_text)
  = (Normal false, Example.signed_out_with Example.t0_text).
Proof. apply isAuthenticated_without_user. reflexivity. Defined.

(** C2, counterexample: three reachable states with a current user and no
    valid token: [getUser()] answered with a user while nothing is stored;
    a signed-in service once its token has expired; and a service whose
    application signed out while the reply of the restore was in flight,
    a reply to a request that carried the valid token [t1]. *)
Lemma session_invariant_broken :
  (reachable (rt := Reference.runtime) Example.now Example.answered
   /\ current_user (world Example.answered) = Some Example.u1
   /\ stored_text (world Example.answered) = None
   /\ ~ session_invariant (rt := Reference.runtime) Example.now
          (world Example.answered))
  /\ (reachable (rt := Reference.runtime) Example.later Example.signed_in
      /\ current_user (world Example.signed_in) = Some Example.u1
      /\ ~ session_invariant (rt := Reference.runtime) Example.later
             (world Example.signed_in))
  /\ (reachable (rt := Reference.runtime) Example.now Example.overtaken
      /\ plausible (rt := Reference.runtime) Example.now (GetUser Example.user_reply)
           (initial_world (Some Example.cfg) {[ tokenStorageKey := Example.t1_text ]})
      /\ current_user (world Example.overtaken) = Some Example.u1
      /\ stored_text (world Example.overtaken) = None
      /\ ~ session_invariant (rt := Reference.runtime) Example.now
             (world Example.overtaken)).
Proof.
  assert (reachable (rt := Reference.runtime) Example.now Example.fresh) as Hfresh.
  { exact (reachable_constructor _ _ _ _ _ _ (Z.le_refl _) reference_started). }
  split; [|split].
  - split; [|split; [|split]].
    + apply reachable_arrives.
      apply reachable_calls with (now := Example.now); [exact Hfresh | reflexivity].
    + vm_compute; reflexivity.
    + vm_compute; reflexivity.
    + intros Hinv. destruct Hinv as (s & v & Hs & _); [vm_compute; discriminate|].
      vm_compute in Hs. discriminate Hs.
  - split; [|split].
    + apply reachable_later with (now := Example.now); [|vm_compute; discriminate].
      apply reachable_arrives.
      apply reachable_calls with (now := Example.now); [exact Hfresh | reflexivity].
    + vm_compute; reflexivity.
    + intros Hinv.
      destruct Hinv as (s & v & Hs & Hp & tok & t & _ & Ht & Hle);
        [vm_compute; discriminate|].
      vm_compute in Hs. injection Hs as <-.
      vm_compute in Hp. injection Hp as <-.
      vm_compute in Ht. injection Ht as <-.
      apply Hle. vm_compute; reflexivity.
  - split; [|split; [|split; [|split]]].
    + apply reachable_arrives.
      apply reachable_calls with (now := Example.now); [|reflexivity].
      exact (reachable_constructor _ _ _ _ _ _ (Z.le_refl _) reference_restoring).
    + apply reference_t1_valid; [vm_compute; discriminate | vm_compute; reflexivity].
    + vm_compute; reflexivity.
    + vm_compute; reflexivity.
    + intros Hinv. destruct Hinv as (s & v & Hs & _); [vm_compute; discriminate|].
      vm_compute in Hs. discriminate Hs.
Qed.

(** C2, witness: a browser that holds the token [t1]; the reply of the
    restore arrives, and then a session of plausible operations, one
    minute apart, each reply awaited. *)
Lemma session_invariant_of_plausible_runs_witness :
  session_invariant (rt := Reference.runtime) (Example.now + 180000)
    (world (steps (rt := Reference.runtime) (Arrives 0 :: Example.awaited_session)
              Example.restoring))
  /\ current_user
       (world (steps (rt := Reference.runtime) (Arrives 0 :: Example.awaited_session)
                 Example.restoring))
     = Some Example.u1.
Proof.
  split; [|vm_compute; reflexivity].
  apply (session_invariant_of_plausible_runs (rt := Reference.runtime) Example.now
           Example.now (Some Example.cfg) {[ tokenStorageKey := Example.t1_text ]}
           Example.user_reply (Arrives 0 :: Example.awaited_session)
           Example.restoring reference_restoring).
  - apply reference_t1_valid; [vm_compute; discriminate | vm_compute; reflexivity].
  - vm_compute. repeat split.
  - unfold Example.awaited_session.
    cbn [plausible_run plausible Example.user_reply].
    split; [exact I|].
    split; [split; [exact reference_t1_persists | vm_compute; discriminate]|].
    split; [exact I|].
    split; [|repeat split].
    apply reference_t1_valid; [vm_compute; discriminate | vm_compute; reflexivity].
Defined.

(** ** The rest of the service, on the reference runtime *)

Lemma reference_started_headers :
  completes (getHeaders (rt := Reference.runtime) Example.now Example.started).
Proof.
  apply getHeaders_completes. left.
  intros (s & v & d & Hs & _). vm_compute in Hs. discriminate Hs.
Qed.

Lemma reference_signed_in_headers :
  completes (getHeaders (rt := Reference.runtime) Example.now
               (Example.signed_in_with Example.t1_text)).
Proof.
  apply getHeaders_completes. right.
  apply reference_t1_valid; [vm_compute; discriminate | vm_compute; reflexivity].
Qed.

Lemma reference_odd_headers :
  ~ completes (getHeaders (rt := Reference.runtime) Example.now
                 (Example.signed_in_with Example.odd_text)).
Proof. intros [h Hh]. vm_compute in Hh. discriminate Hh. Qed.

(** X1, witness: a first signUp in a browser with nothing stored. *)
Lemma signUp_success_witness :
  option_map ReownUser.id
    (current_user
       (snd (signUp (rt := Reference.runtime) "ada@example.org" "secret" None
               Example.now (HttpSuccess Example.sign_up_response) Example.started)))
  = Some "u1"
  /\ current_session
       (snd (signUp (rt := Reference.runtime) "ada@example.org" "secret" None
               Example.now (HttpSuccess Example.sign_up_response) Example.started))
     = None
  /\ fst (isAuthenticated (rt := Reference.runtime) Example.now
            (snd (signUp (rt := Reference.runtime) "ada@example.org" "secret" None
                    Example.now (HttpSuccess Example.sign_up_response)
                    Example.started)))
     = Normal true.
Proof.
  destruct (signUp_success (rt := Reference.runtime) Example.now Example.now
              Example.started "ada@example.org" "secret" None
              Example.sign_up_response)
    as (_ & Huser & _ & Hsession & _ & Hauth).
  - eexists. vm_compute; reflexivity.
  - split; [rewrite Huser; reflexivity|].
    split; [apply Hsession; reflexivity|].
    apply Hauth; [exact reference_t1_persists | vm_compute; discriminate].
Defined.

(** X2, witness: a profile update answered with the user [u1], nothing
    stored. *)
Lemma getUser_updateUser_success_witness :
  fst (updateUser (rt := Reference.runtime) Example.new_email Example.now
         (HttpSuccess {| response_user := Example.u1 |}) Example.started)
  = Normal (Emits Example.u1)
  /\ session_state
       (snd (updateUser (rt := Reference.runtime) Example.new_email Example.now
               (HttpSuccess {| response_user := Example.u1 |}) Example.started))
     = (Some Example.u1, None, None).
Proof.
  destruct (getUser_updateUser_success (rt := Reference.runtime) Example.now
              Example.started Example.new_email {| response_user := Example.u1 |}
              reference_started_headers)
    as (_ & Hout & _ & Hstate).
  split; [exact Hout | rewrite Hstate; vm_compute; reflexivity].
Defined.

(** X3, witness: [getUser()] refused without a message, and with one. *)
Lemma getUser_updateUser_failure_witness :
  fst (getUser (rt := Reference.runtime) Example.now
         (HttpFailure Example.silent_failure) Example.started)
  = Normal (Errors "Get user failed")
  /\ fst (getUser (rt := Reference.runtime) Example.now
            (HttpFailure Example.failure) Example.started)
     = Normal (Errors "Invalid credentials").
Proof.
  split.
  - destruct (getUser_updateUser_failure (rt := Reference.runtime) Example.now
                Example.started Example.new_email Example.silent_failure
                reference_started_headers)
      as (_ & Hfallback & _).
    apply Hfallback. left. reflexivity.
  - destruct (getUser_updateUser_failure (rt := Reference.runtime) Example.now
                Example.started Example.new_email Example.failure
                reference_started_headers)
      as (Hmessage & _).
    apply (Hmessage "Invalid credentials"); [reflexivity | discriminate].
Defined.

(** X5, witness: the token [t1], good for an hour, read at once and a
    millisecond after the hour. *)
Lemma setToken_getStoredToken_witness :
  (exists v,
     getStoredToken (rt := Reference.runtime) Example.now
       (snd (setToken (rt := Reference.runtime) Example.t1 Example.started))
     = (Normal v, snd (setToken (rt := Reference.runtime) Example.t1 Example.started))
     /\ member v "token" = JString "t1")
  /\ fst (getStoredToken (rt := Reference.runtime) Example.later
            (snd (setToken (rt := Reference.runtime) Example.t1 Example.started)))
     = Normal JNull.
Proof.
  destruct (setToken_getStoredToken (rt := Reference.runtime) Example.now Example.t1
              Example.started reference_t1_persists) as [Hfresh _].
  destruct (setToken_getStoredToken (rt := Reference.runtime) Example.later Example.t1
              Example.started reference_t1_persists) as [_ Hexpired].
  split.
  - destruct Hfresh as (v & Hread & Htoken & _); [vm_compute; discriminate|].
    exists v. split; [exact Hread | exact Htoken].
  - destruct Hexpired as [Hread _]; [vm_compute; reflexivity|].
    rewrite Hread. reflexivity.
Defined.

(** X6, witness: a read while the token [t1] is good, then one after it
    has expired. *)
Lemma earlier_read_is_harmless_witness :
  getStoredToken (rt := Reference.runtime) Example.later
    (snd (getStoredToken (rt := Reference.runtime) Example.now
            (Example.signed_in_with Example.t1_text)))
  = getStoredToken (rt := Reference.runtime) Example.later
      (Example.signed_in_with Example.t1_text).
Proof.
  destruct (earlier_read_is_harmless (rt := Reference.runtime) Example.now
              Example.later (Example.signed_in_with Example.t1_text)) as [Hread _].
  - vm_compute; discriminate.
  - exact Hread.
Defined.

(** The token [t1] is no longer accepted a millisecond after its hour. *)
Lemma reference_t1_rejected_later (w : World) :
  stored_text w = Some Example.t1_text ->
  ~ accepted (rt := Reference.runtime) Example.later w.
Proof.
  intros Hw (s & v & d & Hs & Hp & _ & Hd & Hfresh).
  assert (s = Example.t1_text) as -> by congruence.
  vm_compute in Hp. injection Hp as <-.
  vm_compute in Hd. injection Hd as <-.
  specialize (Hfresh _ eq_refl). vm_compute in Hfresh. apply Hfresh. reflexivity.
Qed.

(** X8, witness: a browser that holds the token [t1], the clock passing
    the expiry of [t1] between the token read of the restore and its
    request: the request goes out without [Authorization], and the stored
    text is gone. *)
Lemma constructor_restoreSession_witness :
  exists s,
    constructor (rt := Reference.runtime) (Some Example.cfg)
      {[ tokenStorageKey := Example.t1_text ]} Example.now Example.later
      Example.user_reply
    = Some s
    /\ in_flight s = [GetUser Example.user_reply]
    /\ option_map (fun r => headers r !! "Authorization") (head (network (world s)))
       = Some None
    /\ session_state (world s) = (None, None, None).
Proof.
  destruct (constructor_restoreSession (rt := Reference.runtime) Example.now
              Example.later (Some Example.cfg) {[ tokenStorageKey := Example.t1_text ]}
              Example.user_reply)
    as (_ & _ & Hexpired & _).
  - vm_compute; discriminate.
  - destruct Hexpired as (s & Hnew & Hflying & Hnet & Hstate).
    + apply valid_token_accepted, reference_t1_valid;
        [vm_compute; discriminate | vm_compute; reflexivity].
    + apply reference_t1_rejected_later. vm_compute; reflexivity.
    + exists s. split; [exact Hnew|]. split; [exact Hflying|].
      split; [rewrite Hnet; vm_compute; reflexivity | exact Hstate].
Defined.

(** X9, witness: a service constructed with nothing injected. *)
Lemma constructor_config_witness :
  ReownConfig.baseUrl (config (initial_world None ∅)) = Some "https://api.reown.com"
  /\ ReownConfig.environment (config (initial_world None ∅)) = Some production
  /\ In "ReownAppKit: No configuration provided." (console (initial_world None ∅)).
Proof.
  destruct (constructor_config (rt := Reference.runtime) Example.now Example.now None ∅
              (HttpFailure Example.failure)
              {| world := initial_world None ∅; in_flight := [] |}
              (initial_world None ∅))
    as (_ & _ & Henvironment & Hbase & _ & Hwarned).
  - vm_compute; reflexivity.
  - left. reflexivity.
  - split; [exact Hbase|]. split; [exact Henvironment|]. apply Hwarned. reflexivity.
Defined.

(** X11, witness: the headers of a signed-in service. *)
Lemma getHeaders_names_witness :
  match fst (getHeaders (rt := Reference.runtime) Example.now
               (Example.signed_in_with Example.t1_text)) with
  | Normal h => (size h <= 4)%nat
  | Thrown _ => False
  end.
Proof.
  destruct (fst (getHeaders (rt := Reference.runtime) Example.now
                   (Example.signed_in_with Example.t1_text))) as [h | e] eqn:Hbuilt.
  - apply (getHeaders_names (rt := Reference.runtime) Example.now
             (Example.signed_in_with Example.t1_text) h Hbuilt).
  - destruct reference_signed_in_headers as [h Hh]. congruence.
Defined.

(** X13, witness: a signUp whose [userData] carries another e-mail, and
    one whose [userData] carries none. *)
Lemma signUp_request_witness :
  (exists r b,
     network (snd (signUp (rt := Reference.runtime) "ada@example.org" "secret"
                     (Some Example.new_email) Example.now
                     (HttpFailure Example.failure) Example.started))
     = [r]
     /\ url r = "https://api.reown.com/users"
     /\ body r = Some b
     /\ member b "email" = JString "countess@example.org"
     /\ member b "lastName" = JString "Lovelace"
     /\ member b "password" = JString "secret")
  /\ (exists r b,
        network (snd (signUp (rt := Reference.runtime) "ada@example.org" "secret"
                        (Some [("firstName", JString "Ada")]) Example.now
                        (HttpFailure Example.failure) Example.started))
        = [r]
        /\ body r = Some b
        /\ member b "email" = JString "ada@example.org").
Proof.
  destruct reference_started_headers as [h Hh].
  split.
  - destruct (signUp_request (rt := Reference.runtime) Example.now "ada@example.org"
                "secret" (Some Example.new_email) (HttpFailure Example.failure)
                Example.started h Hh)
      as (r & b & Hnet & _ & Hurl & _ & Hbody & Hmember & _).
    + apply (bool_decide_unpack _). vm_compute. reflexivity.
    + exists r, b.
      split; [exact Hnet|]. split; [exact Hurl|]. split; [exact Hbody|].
      rewrite !Hmember. repeat split.
  - destruct (signUp_request (rt := Reference.runtime) Example.now "ada@example.org"
                "secret" (Some [("firstName", JString "Ada")])
                (HttpFailure Example.failure) Example.started h Hh)
      as (r & b & Hnet & _ & _ & _ & Hbody & _ & Hemail).
    + apply (bool_decide_unpack _). vm_compute. reflexivity.
    + exists r, b. split; [exact Hnet|]. split; [exact Hbody|].
      apply Hemail. apply (bool_decide_unpack _). vm_compute. reflexivity.
Defined.

(** X14, witness: signing out of a session whose id is empty. *)
Lemma signOut_empty_session_id_witness :
  signOut (rt := Reference.runtime) Example.now (HttpSuccess tt)
    Example.signed_in_anonymous
  = (Normal (Emits tt), cleared Example.signed_in_anonymous)
  /\ network (cleared Example.signed_in_anonymous) = [].
Proof.
  destruct (signOut_empty_session_id (rt := Reference.runtime) Example.now
              (HttpSuccess tt) Example.signed_in_anonymous Example.s_anonymous
              eq_refl eq_refl)
    as (Hout & Hnet & _).
  split; [exact Hout | exact Hnet].
Defined.

(** X15, witness: signing out of the session [s1], the server refusing. *)
Lemma signOut_request_witness :
  exists w',
    signOut (rt := Reference.runtime) Example.now (HttpFailure Example.failure)
      (Example.signed_in_with Example.t1_text)
    = (Normal (Emits tt), w')
    /\ option_map url (head (network w')) = Some "https://api.reown.com/sessions/s1"
    /\ option_map method (head (network w')) = Some DELETE
    /\ session_state w' = (None, None, None)
    /\ console w' = ["ReownAppKit: Sign out failed"].
Proof.
  destruct reference_signed_in_headers as [h Hh].
  destruct (signOut_request (rt := Reference.runtime) Example.now
              (HttpFailure Example.failure) (Example.signed_in_with Example.t1_text)
              Example.s1 h eq_refl)
    as (w' & Hout & Hnet & Hstate & Hconsole & _).
  - discriminate.
  - exact Hh.
  - exists w'. split; [exact Hout|]. rewrite Hnet.
    split; [reflexivity|]. split; [reflexivity|]. split; [exact Hstate | exact Hconsole].
Defined.

(** X16, witness: a first signUp, then a signOut. *)
Lemma signUp_then_signOut_witness :
  fst (signOut (rt := Reference.runtime) (Example.now + 60000) (HttpSuccess tt)
         (snd (signUp (rt := Reference.runtime) "ada@example.org" "secret" None
                 Example.now (HttpSuccess Example.sign_up_response) Example.started)))
  = Normal (Emits tt)
  /\ network
       (cleared
          (snd (signUp (rt := Reference.runtime) "ada@example.org" "secret" None
                  Example.now (HttpSuccess Example.sign_up_response)
                  Example.started)))
     = network
         (snd (signUp (rt := Reference.runtime) "ada@example.org" "secret" None
                 Example.now (HttpSuccess Example.sign_up_response) Example.started)).
Proof.
  destruct (signUp_then_signOut (rt := Reference.runtime) Example.now
              (Example.now + 60000) "ada@example.org" "secret" None
              (HttpSuccess Example.sign_up_response) (HttpSuccess tt) Example.started
              eq_refl)
    as (Hout & Hnet & _).
  split; [rewrite Hout; reflexivity | exact Hnet].
Defined.

(** X18, witness: [getUser()] with a stored text whose [token] is an
    object with an own [toString]. *)
Lemma unbuilt_request_changes_nothing_witness :
  run (rt := Reference.runtime) Example.now (GetUser Example.user_reply)
    (Example.signed_in_with Example.odd_text)
  = Example.signed_in_with Example.odd_text.
Proof.
  apply (unbuilt_request_changes_nothing (rt := Reference.runtime) Example.now
           (GetUser Example.user_reply) (Example.signed_in_with Example.odd_text)).
  - reflexivity.
  - exact reference_odd_headers.
Defined.

(** X19, witness: a theme stored beside the token, through a session of
    four calls. *)
Lemma run_all_other_keys_witness :
  localStorage
    (run_all (rt := Reference.runtime) Example.session
       (initial_world (Some Example.cfg) {[ "theme" := "dark" ]}))
  !! "theme"
  = Some "dark".
Proof.
  rewrite (run_all_other_keys (rt := Reference.runtime) Example.session
             (initial_world (Some Example.cfg) {[ "theme" := "dark" ]}) "theme").
  - reflexivity.
  - discriminate.
Defined.
